(** * The command-line front end: argv helpers, route-first dispatch,
      the pre-action hook and the memory commands

    The development follows the TypeScript sources:
    - [cli/route.ts] ([tryRouteCli]),
    - [cli/program/preaction.ts] ([registerPreActionHooks]),
    - [cli/memory-cli.ts] ([runMemoryStatus], [registerMemoryCli]),
    - [cli/argv.test.ts] (the unit tests of the argv helpers).

    Strings are [String.string]; an argument vector is a [list string].
    A JavaScript value of type [string | null | undefined] is the
    three-constructor type [FlagValue]; a value of type
    [string | undefined] is an [option string]. *)

From Stdlib Require Import String Ascii List ZArith Bool Lia.
Import ListNotations.
Local Open Scope string_scope.
Local Open Scope list_scope.

Set Implicit Arguments.

(** ** JavaScript string primitives *)

(** [s.startsWith(p)] *)
Definition startsWith (s p : string) : bool := String.prefix p s.

(** [s.slice(n)] for [0 <= n] *)
Fixpoint slice (n : nat) (s : string) : string :=
  match n, s with
  | O, _ => s
  | S _, EmptyString => EmptyString
  | S n', String _ s' => slice n' s'
  end.

(** A JavaScript string is held as the sequence of its UTF-8 bytes.

    White space removed by [String.prototype.trim]: the code points of
    WhiteSpace and LineTerminator.  Those of one byte are TAB, LF, VT, FF,
    CR and SPACE. *)
Definition isWhiteSpace (c : ascii) : bool :=
  let n := nat_of_ascii c in
  ((9 <=? n) && (n <=? 13))%nat || (n =? 32)%nat.

(** The one of two bytes: U+00A0 (C2 A0). *)
Definition isWhiteSpace2 (a b : ascii) : bool :=
  ((nat_of_ascii a =? 194) && (nat_of_ascii b =? 160))%nat.

(** Those of three bytes: U+1680 (E1 9A 80), U+2000 to U+200A
    (E2 80 80 to E2 80 8A), U+2028, U+2029 and U+202F (E2 80 A8, A9, AF),
    U+205F (E2 81 9F), U+3000 (E3 80 80) and U+FEFF (EF BB BF). *)
Definition isWhiteSpace3 (a b c : ascii) : bool :=
  let x := nat_of_ascii a in
  let y := nat_of_ascii b in
  let z := nat_of_ascii c in
  ((x =? 225) && (y =? 154) && (z =? 128)
   || (x =? 226) && (y =? 128)
      && ((128 <=? z) && (z <=? 138) || (z =? 168) || (z =? 169) || (z =? 175))
   || (x =? 226) && (y =? 129) && (z =? 159)
   || (x =? 227) && (y =? 128) && (z =? 128)
   || (x =? 239) && (y =? 187) && (z =? 191))%nat.

(** [s.trimStart()] *)
Fixpoint trimStart (s : string) : string :=
  match s with
  | EmptyString => EmptyString
  | String a s1 =>
      if isWhiteSpace a then trimStart s1
      else
        match s1 with
        | EmptyString => s
        | String b s2 =>
            if isWhiteSpace2 a b then trimStart s2
            else
              match s2 with
              | EmptyString => s
              | String c s3 => if isWhiteSpace3 a b c then trimStart s3 else s
              end
        end
  end.

(** The bytes of a string in reverse order. *)
Fixpoint reverseOnto (s acc : string) : string :=
  match s with
  | EmptyString => acc
  | String c s' => reverseOnto s' (String c acc)
  end.

Definition reverse (s : string) : string := reverseOnto s EmptyString.

(** [trimStart] on the reversed bytes: the last byte of a code point
    comes first. *)
Fixpoint trimStartReversed (s : string) : string :=
  match s with
  | EmptyString => EmptyString
  | String c s1 =>
      if isWhiteSpace c then trimStartReversed s1
      else
        match s1 with
        | EmptyString => s
        | String b s2 =>
            if isWhiteSpace2 b c then trimStartReversed s2
            else
              match s2 with
              | EmptyString => s
              | String a s3 => if isWhiteSpace3 a b c then trimStartReversed s3 else s
              end
        end
  end.

(** [s.trimEnd()] *)
Definition trimEnd (s : string) : string := reverse (trimStartReversed (reverse s)).

(** [s.trim()] *)
Definition trim (s : string) : string := trimEnd (trimStart s).

(** Truthiness of a string: only the empty string is falsy. *)
Definition truthy (s : string) : bool := negb (s =? "").

(** The result type [string | null | undefined] of a value-flag lookup. *)
Inductive FlagValue : Type :=
| FlagUndefined
| FlagNull
| FlagString (value : string).

Definition isNull (v : FlagValue) : bool :=
  match v with FlagNull => true | _ => false end.

(** A non-null lookup result seen as [string | undefined]. *)
Definition optionOfFlag (v : FlagValue) : option string :=
  match v with FlagString s => Some s | _ => None end.

(** ** The argv helpers of [cli/argv.ts]

    [argv.ts] itself is not among the sources at hand; its unit tests
    ([argv.test.ts]) are.  The helpers below are written from the
    specification and checked against every assertion of the tests. *)

Module Argv.

Definition FLAG_TERMINATOR : string := "--".
Definition HELP_FLAGS : list string := ["-h"; "--help"].
Definition VERSION_FLAGS : list string := ["-V"; "--version"].

Definition isMember (s : string) (l : list string) : bool :=
  existsb (String.eqb s) l.

(** Left-to-right scan for a help or version token, up to the first
    terminator. *)
Fixpoint scanHelpOrVersion (args : list string) : bool :=
  match args with
  | [] => false
  | arg :: rest =>
      if arg =? FLAG_TERMINATOR then false
      else if isMember arg HELP_FLAGS || isMember arg VERSION_FLAGS then true
      else scanHelpOrVersion rest
  end.

(** Modelled from the spec: [hasHelpOrVersion] of the absent [cli/argv.ts]:
    true if any token, scanning from index 2 onward, equals [--help],
    [-h], [--version] or [-V], before any terminator. *)
Definition hasHelpOrVersion (argv : list string) : bool :=
  scanHelpOrVersion (skipn 2 argv).

(** The maximal leading run of tokens that are neither flags nor the
    terminator. *)
Fixpoint commandRun (args : list string) : list string :=
  match args with
  | [] => []
  | arg :: rest =>
      if (arg =? FLAG_TERMINATOR) || startsWith arg "-" then []
      else arg :: commandRun rest
  end.

(** Modelled from the spec: [getCommandPath] of the absent [cli/argv.ts]:
    the tokens starting at [offset] that do not begin with [-] and are
    not the terminator, stopping at the first flag or terminator. *)
Definition getCommandPath (argv : list string) (offset : nat) : list string :=
  commandRun (skipn offset argv).

(** Modelled from the spec: [getPrimaryCommand] of the absent
    [cli/argv.ts]: the first element of [getCommandPath argv 2], or
    [null] ([None]) when the path is empty. *)
Definition getPrimaryCommand (argv : list string) : option string :=
  match getCommandPath argv 2 with
  | [] => None
  | primary :: _ => Some primary
  end.

(** Modelled from the spec: [hasFlag] of the absent [cli/argv.ts]: true
    iff [name] appears as an exact token before any terminator. *)
Fixpoint hasFlag (argv : list string) (name : string) : bool :=
  match argv with
  | [] => false
  | arg :: rest =>
      if arg =? FLAG_TERMINATOR then false
      else if arg =? name then true
      else hasFlag rest name
  end.

(** Modelled from the spec: [getFlagValue] of the absent [cli/argv.ts]:
    for a [--name=value] token the text after [=]; for a bare [--name]
    token the next token, unless that token starts with [-] or does not
    exist, in which case [null]; [undefined] when the flag does not
    occur before the terminator.  The scan is left to right and the
    first occurrence decides. *)
Fixpoint getFlagValue (argv : list string) (name : string) : FlagValue :=
  match argv with
  | [] => FlagUndefined
  | arg :: rest =>
      if arg =? FLAG_TERMINATOR then FlagUndefined
      else if arg =? name then
        match rest with
        | next :: _ => if startsWith next "-" then FlagNull else FlagString next
        | [] => FlagNull
        end
      else if startsWith arg (name ++ "=") then
        FlagString (slice (String.length name + 1) arg)
      else getFlagValue rest name
  end.

(** The parameter object of [buildParseArgv]. *)
Record BuildParseArgvParams : Type := mkBuildParams {
  programName : string;
  rawArgs : option (list string);
  fallbackArgv : option (list string)
}.

(** The synthetic runtime element. *)
Definition SYNTHETIC_RUNTIME : string := "node".

(** Modelled from the spec: [buildParseArgv] of the absent [cli/argv.ts]:
    raw launcher arguments that start with the program name are a
    direct-binary invocation and get the synthetic runtime element in
    front; other raw launcher arguments are a script-runner invocation
    and pass through unchanged; a fallback token array is wrapped with
    the synthetic runtime and the program name. *)
Definition buildParseArgv (p : BuildParseArgvParams) : list string :=
  match rawArgs p with
  | Some (first :: rest) =>
      if first =? programName p
      then SYNTHETIC_RUNTIME :: first :: rest
      else first :: rest
  | _ =>
      SYNTHETIC_RUNTIME :: programName p ::
        match fallbackArgv p with Some tokens => tokens | None => [] end
  end.

End Argv.

(** ** The interface of [cli/argv.ts] as its callers import it *)

Class ArgvApi : Type := {
  hasHelpOrVersion : list string -> bool;
  getCommandPath : list string -> nat -> list string;
  hasFlag : list string -> string -> bool;
  getFlagValue : list string -> string -> FlagValue
}.

(** The helpers written from the specification implement the interface. *)
Definition specArgv : ArgvApi := {|
  hasHelpOrVersion := Argv.hasHelpOrVersion;
  getCommandPath := Argv.getCommandPath;
  hasFlag := Argv.hasFlag;
  getFlagValue := Argv.getFlagValue
|}.

(** ** Observable effects *)

(** Options objects handed to the command handlers. *)
Record HealthOptions : Type := mkHealthOptions {
  health_json : bool;
  health_timeoutMs : option Z;
  health_verbose : bool
}.

Record StatusOptions : Type := mkStatusOptions {
  status_json : bool;
  status_deep : bool;
  status_all : bool;
  status_usage : bool;
  status_timeoutMs : option Z;
  status_verbose : bool
}.

Record SessionsOptions : Type := mkSessionsOptions {
  sessions_json : bool;
  sessions_store : option string;
  sessions_active : option string
}.

Record AgentsListOptions : Type := mkAgentsListOptions {
  agents_json : bool;
  agents_bindings : bool
}.

(** [MemoryCommandOptions]; an omitted boolean option is [false], the
    code only tests the options for truthiness. *)
Record MemoryCommandOptions : Type := mkMemoryOptions {
  opt_agent : option string;
  opt_json : bool;
  opt_deep : bool;
  opt_index : bool;
  opt_verbose : bool
}.

(** A thrown JavaScript value. *)
Inductive Exn : Type := JsError (message : string).

(** Methods of the memory manager that the CLI calls. *)
Inductive ManagerOp : Type :=
| OpStatus
| OpProbeVectorAvailability
| OpProbeEmbeddingAvailability
| OpSync (force : bool)
| OpSearch (query : string)
| OpClose.

(** Calls that leave the module, in the order they happen. *)
Inductive Event : Type :=
| EmitCliBanner (version : string) (bannerArgv : option (list string))
| EnsureConfigReady (migrateState : bool)
| EnsurePluginRegistryLoaded
| SetVerbose (verbose : bool)
| HealthCommand (opts : HealthOptions)
| StatusCommand (opts : StatusOptions)
| SessionsCommand (opts : SessionsOptions)
| AgentsListCommand (opts : AgentsListOptions)
| GetMemorySearchManager (agentId : string)
| ManagerCall (agentId : string) (op : ManagerOp)
| RuntimeLog (msg : string)
| RuntimeError (msg : string).

(** The [process] global. *)
Record Process : Type := mkProcess {
  process_argv : list string;
  process_env_CLAWDBOT_DISABLE_ROUTE_FIRST : option string;
  process_title : option string;
  process_exitCode : option Z
}.

(** A freshly started process. *)
Definition startProcess (argv : list string) (disableRouteFirst : option string) : Process :=
  mkProcess argv disableRouteFirst None None.

(** ** The monad of asynchronous code: state, trace and exceptions

    An [async] function is run to completion; [await] is sequencing.
    A run yields how the code ended, the [process] global afterwards and
    the external calls made, in order.  State and trace survive a throw,
    so that [try]/[catch] keeps the effects of the aborted block. *)

Inductive Outcome (A : Type) : Type :=
| Returned (a : A)
| Thrown (e : Exn).
Arguments Returned {A} a.
Arguments Thrown {A} e.

Record Run (A : Type) : Type := mkRun {
  outcome : Outcome A;
  after : Process;
  trace : list Event
}.

Definition M (A : Type) : Type := Process -> Run A.

Definition ret {A : Type} (a : A) : M A := fun p => mkRun (Returned a) p [].

Definition bind {A B : Type} (m : M A) (k : A -> M B) : M B :=
  fun p =>
    let r := m p in
    match outcome r with
    | Returned a =>
        let r' := k a (after r) in
        mkRun (outcome r') (after r') (trace r ++ trace r')
    | Thrown e => mkRun (Thrown e) (after r) (trace r)
    end.

Notation "x <- m ;; k" := (bind m (fun x => k))
  (at level 61, m at next level, right associativity).
Notation "m ;; k" := (bind m (fun _ => k))
  (at level 61, right associativity).

(** [try { body } catch (err) { handler }] *)
Definition tryCatch {A : Type} (body : M A) (handler : Exn -> M A) : M A :=
  fun p =>
    let r := body p in
    match outcome r with
    | Returned a => r
    | Thrown e =>
        let r' := handler e (after r) in
        mkRun (outcome r') (after r') (trace r ++ trace r')
    end.

(** [try { body } finally { cleanup }] *)
Definition tryFinally {A : Type} (body : M A) (cleanup : M unit) : M A :=
  fun p =>
    let r := body p in
    let r' := cleanup (after r) in
    match outcome r' with
    | Returned _ => mkRun (outcome r) (after r') (trace r ++ trace r')
    | Thrown e => mkRun (Thrown e) (after r') (trace r ++ trace r')
    end.

(** An external call that returns normally. *)
Definition emit (ev : Event) : M unit := fun p => mkRun (Returned tt) p [ev].

(** An external call whose outcome the environment decides. *)
Definition call {A : Type} (ev : Event) (result : Outcome A) : M A :=
  fun p => mkRun result p [ev].

(** [process.exitCode = n] *)
Definition setExitCode (n : Z) : M unit :=
  fun p =>
    mkRun (Returned tt)
      (mkProcess (process_argv p) (process_env_CLAWDBOT_DISABLE_ROUTE_FIRST p)
         (process_title p) (Some n))
      [].

(** [process.title = t] *)
Definition setTitle (t : string) : M unit :=
  fun p =>
    mkRun (Returned tt)
      (mkProcess (process_argv p) (process_env_CLAWDBOT_DISABLE_ROUTE_FIRST p)
         (Some t) (process_exitCode p))
      [].

(** Reading the [process] global. *)
Definition getProcess : M Process := fun p => mkRun (Returned p) p [].

(** [for (const x of xs) { body x }], threading the locals the body
    updates. *)
Fixpoint forOf {A S : Type} (xs : list A) (body : A -> S -> M S) (s : S) : M S :=
  match xs with
  | [] => ret s
  | x :: rest => s' <- body x s ;; forOf rest body s'
  end.

(** The external collaborators as calls. *)
Definition emitCliBanner (version : string) (bannerArgv : option (list string)) : M unit :=
  emit (EmitCliBanner version bannerArgv).
Definition ensureConfigReady (migrateState : bool) : M unit :=
  emit (EnsureConfigReady migrateState).
Definition ensurePluginRegistryLoaded : M unit := emit EnsurePluginRegistryLoaded.
Definition setVerbose (verbose : bool) : M unit := emit (SetVerbose verbose).
Definition healthCommand (opts : HealthOptions) : M unit := emit (HealthCommand opts).
Definition statusCommand (opts : StatusOptions) : M unit := emit (StatusCommand opts).
Definition sessionsCommand (opts : SessionsOptions) : M unit := emit (SessionsCommand opts).
Definition agentsListCommand (opts : AgentsListOptions) : M unit :=
  emit (AgentsListCommand opts).
Definition runtimeLog (msg : string) : M unit := emit (RuntimeLog msg).
Definition runtimeError (msg : string) : M unit := emit (RuntimeError msg).

(** [x === s] for [x : string | undefined] *)
Definition strictEq (x : option string) (s : string) : bool :=
  match x with Some y => y =? s | None => false end.

(** [!x] for [x : string | undefined] *)
Definition falsy (x : option string) : bool :=
  match x with Some y => negb (truthy y) | None => true end.

(** ** Configuration and the memory manager *)

Record AgentEntry : Type := mkAgentEntry { agent_id : string }.

Record AgentsConfig : Type := mkAgentsConfig { agents_list : option (list AgentEntry) }.

(** The part of the loaded configuration that the CLI reads. *)
Record Config : Type := mkConfig { agents : option AgentsConfig }.

(** What [manager.status()] reports; the CLI only prints it. *)
Record MemoryStatus : Type := mkMemoryStatus {
  provider : string;
  requestedProvider : string;
  model : string;
  sources : list string;
  files : Z;
  chunks : Z;
  dirty : bool;
  dbPath : string;
  workspaceDir : string
}.

Record EmbeddingProbe : Type := mkEmbeddingProbe {
  probe_ok : bool;
  probe_error : option string
}.

(** A search hit; [scoreText] is [score.toFixed(3)]. *)
Record SearchResult : Type := mkSearchResult {
  result_path : string;
  startLine : Z;
  endLine : Z;
  scoreText : string;
  snippet : string
}.

(** A manager instance, given by what each of its methods does when the
    CLI calls it. *)
Record Manager : Type := mkManager {
  manager_status : Outcome MemoryStatus;
  manager_probeVectorAvailability : Outcome unit;
  manager_probeEmbeddingAvailability : Outcome EmbeddingProbe;
  manager_sync : bool -> Outcome unit;
  manager_search : string -> Outcome (list SearchResult);
  manager_close : Outcome unit
}.

(** [MemorySearchManagerResult] *)
Record ManagerLookup : Type := mkLookup {
  lookup_manager : option Manager;
  lookup_error : option string
}.

(** One element of [allResults] in [runMemoryStatus]. *)
Record StatusEntry : Type := mkStatusEntry {
  entry_agentId : string;
  entry_status : MemoryStatus;
  entry_embeddingProbe : option EmbeddingProbe;
  entry_indexError : option string
}.

(** ** The environment the CLI runs in

    Everything imported from modules that are not part of this
    development: constants, helpers whose source is elsewhere, the
    configuration on disk, the memory engine and the pure rendering of
    reports (theme, colours, JSON). *)
Class World : Type := {
  VERSION : string;
  isTruthyEnvValue : option string -> bool;
  parsePositiveIntOrUndefined : option string -> option Z;
  formatErrorMessage : Exn -> string;
  loadConfig : Config;
  resolveDefaultAgentId : Config -> string;
  getMemorySearchManager : Config -> string -> ManagerLookup;
  renderStatusJson : list StatusEntry -> string;
  renderStatusReport : StatusEntry -> string;
  renderIndexHeader : string -> MemoryStatus -> string;
  renderSearchJson : list SearchResult -> string;
  renderSearchReport : list SearchResult -> string
}.

Section MemoryCli.
Context {world : World}.

(** [agent?.trim()] *)
Definition trimmedAgent (agent : option string) : option string :=
  option_map trim agent.

(** The value of [x] when [if (x)] takes the branch. *)
Definition whenTruthy (x : option string) : option string :=
  match x with
  | Some s => if truthy s then Some s else None
  | None => None
  end.

(** [cfg.agents?.list ?? []] *)
Definition configuredAgents (cfg : Config) : list AgentEntry :=
  match agents cfg with
  | Some a => match agents_list a with Some l => l | None => [] end
  | None => []
  end.

Definition resolveAgent (cfg : Config) (agent : option string) : string :=
  match whenTruthy (trimmedAgent agent) with
  | Some trimmed => trimmed
  | None => resolveDefaultAgentId cfg
  end.

Definition resolveAgentIds (cfg : Config) (agent : option string) : list string :=
  match whenTruthy (trimmedAgent agent) with
  | Some trimmed => [trimmed]
  | None =>
      let entries := configuredAgents cfg in
      if (0 <? length entries)%nat
      then filter truthy (map agent_id entries)
      else [resolveDefaultAgentId cfg]
  end.

(** A method call on the manager of [agentId]. *)
Definition managerCall {A : Type} (agentId : string) (op : ManagerOp)
    (result : Outcome A) : M A :=
  call (ManagerCall agentId op) result.

(** [getManager: () => getMemorySearchManager({ cfg, agentId })]; an
    unavailable manager is reported in the result ([manager] is null, with
    an optional [error] text), the lookup itself does not throw. *)
Definition getManager (cfg : Config) (agentId : string) : M ManagerLookup :=
  call (GetMemorySearchManager agentId)
       (Returned (getMemorySearchManager cfg agentId)).

(** [onMissing: (error) => defaultRuntime.log(error ?? "Memory search disabled.")] *)
Definition onMissing (error : option string) : M unit :=
  runtimeLog (match error with Some e => e | None => "Memory search disabled." end).

(** [onCloseError] *)
Definition onCloseError (err : Exn) : M unit :=
  runtimeError ("Memory manager close failed: " ++ formatErrorMessage err).

(** Modelled from the spec: [withManager] of the absent [cli/cli-utils.ts]:
    the manager is acquired; when it is unavailable that is reported
    through [onMissing] and nothing else happens; otherwise [run] is
    executed and the manager is closed on both the success and the error
    path, a failure of [close] being reported through [onCloseError] and
    not escalated.  The value of [run] stands for the updates the
    callback makes to the locals of its caller. *)
Definition withManager {R : Type}
    (getManager : M ManagerLookup)
    (onMissing : option string -> M unit)
    (onCloseError : Exn -> M unit)
    (close : Manager -> M unit)
    (run : Manager -> M R) : M (option R) :=
  lookup <- getManager ;;
  match lookup_manager lookup with
  | None => onMissing (lookup_error lookup) ;; ret None
  | Some manager =>
      tryFinally (r <- run manager ;; ret (Some r))
                 (tryCatch (close manager) onCloseError)
  end.

(** Modelled from the spec: [withProgress] and [withProgressTotals] of the
    absent [cli/progress.ts] render a progress bar around the callback;
    the bar is not an observable of this development, so both run the
    callback and nothing else. *)
Definition withProgress {A : Type} (body : M A) : M A := body.
Definition withProgressTotals {A : Type} (body : M A) : M A := body.

(** The [run] callback of [runMemoryStatus] for one agent. *)
Definition statusRun (opts : MemoryCommandOptions) (agentId : string)
    (manager : Manager) : M StatusEntry :=
  let deep := opt_deep opts || opt_index opts in
  probes <-
    (if deep then
       embeddingProbe <-
         withProgress
           (managerCall agentId OpProbeVectorAvailability
              (manager_probeVectorAvailability manager) ;;
            managerCall agentId OpProbeEmbeddingAvailability
              (manager_probeEmbeddingAvailability manager)) ;;
       indexError <-
         (if opt_index opts then
            withProgressTotals
              (tryCatch
                 (managerCall agentId (OpSync false) (manager_sync manager false) ;;
                  ret None)
                 (fun err =>
                    let indexError := formatErrorMessage err in
                    runtimeError ("Memory index failed: " ++ indexError) ;;
                    setExitCode 1 ;;
                    ret (Some indexError)))
          else ret None) ;;
       ret (Some embeddingProbe, indexError)
     else
       managerCall agentId OpProbeVectorAvailability
         (manager_probeVectorAvailability manager) ;;
       ret (None, None)) ;;
  status <- managerCall agentId OpStatus (manager_status manager) ;;
  ret (mkStatusEntry agentId status (fst probes) (snd probes)).

(** Printing one element of [allResults]. *)
Definition printStatusEntry (opts : MemoryCommandOptions) (result : StatusEntry) : M unit :=
  (if opt_index opts then
     runtimeLog
       (match entry_indexError result with
        | Some indexError =>
            if truthy indexError then "Memory index failed: " ++ indexError
            else "Memory index complete."
        | None => "Memory index complete."
        end)
   else ret tt) ;;
  runtimeLog (renderStatusReport result) ;;
  runtimeLog "".

Definition runMemoryStatus (opts : MemoryCommandOptions) : M unit :=
  ensureConfigReady false ;;
  setVerbose (opt_verbose opts) ;;
  let cfg := loadConfig in
  let agentIds := resolveAgentIds cfg (opt_agent opts) in
  allResults <-
    forOf agentIds
      (fun agentId allResults =>
         pushed <-
           withManager (getManager cfg agentId) onMissing onCloseError
             (fun manager => managerCall agentId OpClose (manager_close manager))
             (statusRun opts agentId) ;;
         ret (match pushed with
              | Some entry => allResults ++ [entry]
              | None => allResults
              end))
      [] ;;
  if opt_json opts then runtimeLog (renderStatusJson allResults)
  else forOf allResults (fun result _ => printStatusEntry opts result) tt.

(** The [run] callback of [memory index] for one agent. *)
Definition indexRun (opts : MemoryCommandOptions) (force : bool) (agentId : string)
    (manager : Manager) : M unit :=
  tryCatch
    ((if opt_verbose opts then
        status <- managerCall agentId OpStatus (manager_status manager) ;;
        runtimeLog (renderIndexHeader agentId status) ;;
        runtimeLog ""
      else ret tt) ;;
     withProgressTotals
       (tryFinally
          (managerCall agentId (OpSync force) (manager_sync manager force))
          (ret tt)) ;;
     runtimeLog ("Memory index updated (" ++ agentId ++ ")."))
    (fun err =>
       let message := formatErrorMessage err in
       runtimeError ("Memory index failed (" ++ agentId ++ "): " ++ message) ;;
       setExitCode 1).

(** The action of [memory index]. *)
Definition memoryIndexAction (opts : MemoryCommandOptions) (force : bool) : M unit :=
  setVerbose (opt_verbose opts) ;;
  let cfg := loadConfig in
  let agentIds := resolveAgentIds cfg (opt_agent opts) in
  forOf agentIds
    (fun agentId _ =>
       withManager (getManager cfg agentId) onMissing onCloseError
         (fun manager => managerCall agentId OpClose (manager_close manager))
         (indexRun opts force agentId) ;;
       ret tt)
    tt.

(** The [run] callback of [memory search]. *)
Definition searchRun (query : string) (opts : MemoryCommandOptions) (agentId : string)
    (manager : Manager) : M unit :=
  searched <-
    tryCatch
      (results <- managerCall agentId (OpSearch query) (manager_search manager query) ;;
       ret (Some results))
      (fun err =>
         let message := formatErrorMessage err in
         runtimeError ("Memory search failed: " ++ message) ;;
         setExitCode 1 ;;
         ret None) ;;
  match searched with
  | None => ret tt
  | Some results =>
      if opt_json opts then runtimeLog (renderSearchJson results)
      else if (length results =? 0)%nat then runtimeLog "No matches."
      else runtimeLog (renderSearchReport results)
  end.

(** The action of [memory search]. *)
Definition memorySearchAction (query : string) (opts : MemoryCommandOptions) : M unit :=
  let cfg := loadConfig in
  let agentId := resolveAgent cfg (opt_agent opts) in
  withManager (getManager cfg agentId) onMissing onCloseError
    (fun manager => managerCall agentId OpClose (manager_close manager))
    (searchRun query opts agentId) ;;
  ret tt.

End MemoryCli.

(** ** Route-first dispatch ([cli/route.ts]) *)

Section RouteFirst.
Context {argvApi : ArgvApi} {world : World}.

Definition tryRouteCli (argv : list string) : M bool :=
  process <- getProcess ;;
  if isTruthyEnvValue (process_env_CLAWDBOT_DISABLE_ROUTE_FIRST process) then ret false
  else if hasHelpOrVersion argv then ret false
  else
    let path := getCommandPath argv 2 in
    let primary := nth_error path 0 in
    let secondary := nth_error path 1 in
    if falsy primary then ret false
    else if strictEq primary "health" then
      emitCliBanner VERSION (Some argv) ;;
      ensureConfigReady false ;;
      ensurePluginRegistryLoaded ;;
      let json := hasFlag argv "--json" in
      let verbose := hasFlag argv "--verbose" || hasFlag argv "--debug" in
      let timeout := getFlagValue argv "--timeout" in
      if isNull timeout then ret false
      else
        let timeoutMs := parsePositiveIntOrUndefined (optionOfFlag timeout) in
        setVerbose verbose ;;
        healthCommand (mkHealthOptions json timeoutMs verbose) ;;
        ret true
    else if strictEq primary "status" then
      emitCliBanner VERSION (Some argv) ;;
      ensureConfigReady false ;;
      ensurePluginRegistryLoaded ;;
      let json := hasFlag argv "--json" in
      let deep := hasFlag argv "--deep" in
      let all := hasFlag argv "--all" in
      let usage := hasFlag argv "--usage" in
      let verbose := hasFlag argv "--verbose" || hasFlag argv "--debug" in
      let timeout := getFlagValue argv "--timeout" in
      if isNull timeout then ret false
      else
        let timeoutMs := parsePositiveIntOrUndefined (optionOfFlag timeout) in
        setVerbose verbose ;;
        statusCommand (mkStatusOptions json deep all usage timeoutMs verbose) ;;
        ret true
    else if strictEq primary "sessions" then
      emitCliBanner VERSION (Some argv) ;;
      ensureConfigReady false ;;
      let json := hasFlag argv "--json" in
      let verbose := hasFlag argv "--verbose" in
      let store := getFlagValue argv "--store" in
      if isNull store then ret false
      else
        let active := getFlagValue argv "--active" in
        if isNull active then ret false
        else
          setVerbose verbose ;;
          sessionsCommand
            (mkSessionsOptions json (optionOfFlag store) (optionOfFlag active)) ;;
          ret true
    else if strictEq primary "agents" && strictEq secondary "list" then
      emitCliBanner VERSION (Some argv) ;;
      ensureConfigReady true ;;
      let json := hasFlag argv "--json" in
      let bindings := hasFlag argv "--bindings" in
      agentsListCommand (mkAgentsListOptions json bindings) ;;
      ret true
    else if strictEq primary "memory" && strictEq secondary "status" then
      emitCliBanner VERSION (Some argv) ;;
      let agent := getFlagValue argv "--agent" in
      if isNull agent then ret false
      else
        let json := hasFlag argv "--json" in
        let deep := hasFlag argv "--deep" in
        let index := hasFlag argv "--index" in
        let verbose := hasFlag argv "--verbose" in
        runMemoryStatus (mkMemoryOptions (optionOfFlag agent) json deep index verbose) ;;
        ret true
    else ret false.

End RouteFirst.

(** ** The pre-action hook ([cli/program/preaction.ts]) *)

(** A node of the command tree of the command framework. *)
#[warnings="-register-all"]
Inductive Command : Type :=
| mkCommand (name : string) (parent : option Command).

Definition commandName (c : Command) : string :=
  match c with mkCommand name _ => name end.

Definition commandParent (c : Command) : option Command :=
  match c with mkCommand _ parent => parent end.

(** The loop [while (current.parent && current.parent.parent)
    current = current.parent]. *)
Fixpoint topLevelCommand (current : Command) : Command :=
  match current with
  | mkCommand _ (Some parent) =>
      match commandParent parent with
      | Some _ => topLevelCommand parent
      | None => current
      end
  | mkCommand _ None => current
  end.

Definition setProcessTitleForCommand (actionCommand : Command) : M unit :=
  let name := commandName (topLevelCommand actionCommand) in
  if negb (truthy name) || (name =? "clawdbot") then ret tt
  else setTitle ("clawdbot-" ++ name).

Section PreAction.
Context {argvApi : ArgvApi}.

(** [isReadOnlyCommand] of [cli/argv.ts], of which the specification
    gives examples only; the hook is studied for any classifier. *)
Variable isReadOnlyCommand : list string -> bool.

(** The callback that [registerPreActionHooks] installs. *)
Definition preActionHook (programVersion : string) (actionCommand : Command) : M unit :=
  setProcessTitleForCommand actionCommand ;;
  emitCliBanner programVersion None ;;
  process <- getProcess ;;
  let argv := process_argv process in
  if hasHelpOrVersion argv then ret tt
  else
    let primary := nth_error (getCommandPath argv 1) 0 in
    if strictEq primary "doctor" then ret tt
    else
      let migrateState := negb (isReadOnlyCommand argv) in
      ensureConfigReady migrateState.

End PreAction.

(** ** Observations on a trace *)

(** The migration flags handed to the readiness check, in order. *)
Definition readinessChecks (t : list Event) : list bool :=
  flat_map (fun ev => match ev with EnsureConfigReady m => [m] | _ => [] end) t.

(** Whether an event is the invocation of a command handler. *)
Definition isHandler (ev : Event) : bool :=
  match ev with
  | HealthCommand _ | StatusCommand _ | SessionsCommand _ | AgentsListCommand _ => true
  | _ => false
  end.

(** The agents whose manager was requested, in order. *)
Definition agentsOperatedOn (t : list Event) : list string :=
  flat_map (fun ev => match ev with GetMemorySearchManager a => [a] | _ => [] end) t.

(** The messages written to the error channel, in order. *)
Definition errorMessages (t : list Event) : list string :=
  flat_map (fun ev => match ev with RuntimeError msg => [msg] | _ => [] end) t.

(** ** Vocabulary of the statements *)

(** The fixed table of fast paths. *)
Definition FAST_PATHS : list (list string) :=
  [["health"]; ["status"]; ["sessions"]; ["agents"; "list"]; ["memory"; "status"]].

Fixpoint eqStrings (a b : list string) : bool :=
  match a, b with
  | [], [] => true
  | x :: a', y :: b' => (x =? y) && eqStrings a' b'
  | _, _ => false
  end.

(** [path] begins with [entry]. *)
Definition beginsWith (path entry : list string) : bool :=
  eqStrings (firstn (length entry) path) entry.

Definition onFastPath (path : list string) : bool :=
  existsb (beginsWith path) FAST_PATHS.

(** Some value-flag lookup that the fast path of [argv] performs returns
    [null]. *)
Definition nullLookup {argvApi : ArgvApi} (argv : list string) : bool :=
  let path := getCommandPath argv 2 in
  let primary := nth_error path 0 in
  let secondary := nth_error path 1 in
  if strictEq primary "health" || strictEq primary "status"
  then isNull (getFlagValue argv "--timeout")
  else if strictEq primary "sessions"
  then isNull (getFlagValue argv "--store") || isNull (getFlagValue argv "--active")
  else if strictEq primary "memory" && strictEq secondary "status"
  then isNull (getFlagValue argv "--agent")
  else false.

(** The set-up calls that precede flag parsing on a fast path. *)
Definition isSetup (ev : Event) : bool :=
  match ev with
  | EmitCliBanner _ _ | EnsureConfigReady _ | EnsurePluginRegistryLoaded => true
  | _ => false
  end.

(** A token is a help or version flag. *)
Definition isHelpOrVersionToken (tok : string) : bool :=
  Argv.isMember tok Argv.HELP_FLAGS || Argv.isMember tok Argv.VERSION_FLAGS.

(** The dispatcher is consulted: the escape hatch is off and there is no
    help or version token. *)
Definition consulted {argvApi : ArgvApi} {world : World}
    (argv : list string) (p : Process) : Prop :=
  isTruthyEnvValue (process_env_CLAWDBOT_DISABLE_ROUTE_FIRST p) = false /\
  hasHelpOrVersion argv = false.

(** [keeps I P m]: started in a process state satisfying [I], the
    computation [m] ends in such a state, however it ends, and makes only
    external calls satisfying [P]. *)
Definition keeps (I : Process -> Prop) (P : Event -> Prop) {A : Type} (m : M A) : Prop :=
  forall p, I p -> I (after (m p)) /\ Forall P (trace (m p)).

(** [returns m]: no exception leaves [m]. *)
Definition returns {A : Type} (m : M A) : Prop :=
  forall p, exists a, outcome (m p) = Returned a.

Definition anyProcess (p : Process) : Prop := True.

Definition anyEvent (ev : Event) : Prop := True.

Definition notReadiness (ev : Event) : Prop :=
  match ev with EnsureConfigReady _ => False | _ => True end.

Definition notLookup (ev : Event) : Prop :=
  match ev with GetMemorySearchManager _ => False | _ => True end.

Definition exitCodeIsOne (p : Process) : Prop := process_exitCode p = Some 1%Z.

(** The indexing of an agent fails with [err]: [sync] throws it, or, in
    verbose mode, [status] throws it before [sync] is reached. *)
Definition indexFails (opts : MemoryCommandOptions) (force : bool)
    (manager : Manager) (err : Exn) : Prop :=
  (manager_sync manager force = Thrown err /\
   (opt_verbose opts = true -> exists status, manager_status manager = Returned status)) \/
  (opt_verbose opts = true /\ manager_status manager = Thrown err).

(** The [timeoutMs] a handler call was given, for the handlers that take
    one. *)
Definition timeoutOf (ev : Event) : option (option Z) :=
  match ev with
  | HealthCommand opts => Some (health_timeoutMs opts)
  | StatusCommand opts => Some (status_timeoutMs opts)
  | _ => None
  end.

(** ** Vocabulary of the further properties *)

(** The fast paths of the dispatcher. *)
Inductive FastPath : Type :=
| PathHealth
| PathStatus
| PathSessions
| PathAgentsList
| PathMemoryStatus.

(** The fast path that the tests of [tryRouteCli] select, in their order. *)
Definition fastPathOf {argvApi : ArgvApi} (argv : list string) : option FastPath :=
  let path := getCommandPath argv 2 in
  let primary := nth_error path 0 in
  let secondary := nth_error path 1 in
  if strictEq primary "health" then Some PathHealth
  else if strictEq primary "status" then Some PathStatus
  else if strictEq primary "sessions" then Some PathSessions
  else if strictEq primary "agents" && strictEq secondary "list" then Some PathAgentsList
  else if strictEq primary "memory" && strictEq secondary "status" then Some PathMemoryStatus
  else None.

(** The calls a fast path makes before it looks at its flags. *)
Definition setupCalls (banner : Event) (path : FastPath) : list Event :=
  match path with
  | PathHealth | PathStatus => [banner; EnsureConfigReady false; EnsurePluginRegistryLoaded]
  | PathSessions => [banner; EnsureConfigReady false]
  | PathAgentsList => [banner; EnsureConfigReady true]
  | PathMemoryStatus => [banner]
  end.

(** The [setVerbose] call of a fast path, if it makes one itself. *)
Definition verboseCall (path : FastPath) (verbose : bool) : list Event :=
  match path with
  | PathHealth | PathStatus | PathSessions => [SetVerbose verbose]
  | PathAgentsList | PathMemoryStatus => []
  end.

(** The handler event of a fast path. *)
Definition invokes (path : FastPath) (ev : Event) : bool :=
  match path, ev with
  | PathHealth, HealthCommand _ => true
  | PathStatus, StatusCommand _ => true
  | PathSessions, SessionsCommand _ => true
  | PathAgentsList, AgentsListCommand _ => true
  | _, _ => false
  end.

(** The shapes a run of [tryRouteCli] can have. *)
Inductive RouteRun {argvApi : ArgvApi} {world : World}
    (argv : list string) (p : Process) : Run bool -> Prop :=
| RouteDeclined :
    (consulted argv p -> fastPathOf argv = None) ->
    RouteRun argv p (mkRun (Returned false) p [])
| RouteAborted (path : FastPath) :
    consulted argv p -> fastPathOf argv = Some path -> nullLookup argv = true ->
    RouteRun argv p
      (mkRun (Returned false) p (setupCalls (EmitCliBanner VERSION (Some argv)) path))
| RouteHandled (path : FastPath) (verbose : bool) (handler : Event) :
    consulted argv p -> fastPathOf argv = Some path -> nullLookup argv = false ->
    invokes path handler = true ->
    RouteRun argv p
      (mkRun (Returned true) p
         (setupCalls (EmitCliBanner VERSION (Some argv)) path
          ++ verboseCall path verbose ++ [handler]))
| RouteMemory (opts : MemoryCommandOptions) :
    consulted argv p -> fastPathOf argv = Some PathMemoryStatus -> nullLookup argv = false ->
    RouteRun argv p
      (let r := runMemoryStatus opts p in
       mkRun (match outcome r with Returned _ => Returned true | Thrown e => Thrown e end)
             (after r) (EmitCliBanner VERSION (Some argv) :: trace r)).

(** The messages written to the log channel, in order. *)
Definition logMessages (t : list Event) : list string :=
  flat_map (fun ev => match ev with RuntimeLog msg => [msg] | _ => [] end) t.

(** The calls made on managers, in order. *)
Definition managerCalls (t : list Event) : list (string * ManagerOp) :=
  flat_map (fun ev => match ev with ManagerCall a op => [(a, op)] | _ => [] end) t.

(** A manager is available for [agentId]. *)
Definition available {world : World} (cfg : Config) (agentId : string) : bool :=
  match lookup_manager (getMemorySearchManager cfg agentId) with
  | Some _ => true
  | None => false
  end.

(** A command and its ancestors, the nearest first. *)
Fixpoint ancestors (c : Command) : list Command :=
  match c with
  | mkCommand _ (Some parent) => c :: ancestors parent
  | mkCommand _ None => [c]
  end.

Definition notBanner (ev : Event) : Prop :=
  match ev with EmitCliBanner _ _ => False | _ => True end.

Definition notPluginLoad (ev : Event) : Prop :=
  match ev with EnsurePluginRegistryLoaded => False | _ => True end.

(** The calls [runMemoryStatus] can make. *)
Definition memoryStatusEvent (ev : Event) : Prop :=
  match ev with
  | EnsureConfigReady false | SetVerbose _ | GetMemorySearchManager _
  | ManagerCall _ _ | RuntimeLog _ | RuntimeError _ => True
  | _ => False
  end.

(** An event that is not an error message, or the report of a failed
    [close]. *)
Definition closeFailureOrQuiet {world : World} (ev : Event) : Prop :=
  match ev with
  | RuntimeError msg =>
      exists err, msg = ("Memory manager close failed: " ++ formatErrorMessage err)%string
  | _ => True
  end.

(** [opts] with [--deep] switched on. *)
Definition withDeep (opts : MemoryCommandOptions) : MemoryCommandOptions :=
  mkMemoryOptions (opt_agent opts) (opt_json opts) true (opt_index opts) (opt_verbose opts).

(** What [onMissing] logs for an agent without manager. *)
Definition missingMessage {world : World} (cfg : Config) (agentId : string) : string :=
  match lookup_error (getMemorySearchManager cfg agentId) with
  | Some error => error
  | None => "Memory search disabled."
  end.

(** The indexing of an agent goes through: in verbose mode [status]
    returns, and [sync] returns. *)
Definition indexSucceeds (opts : MemoryCommandOptions) (force : bool)
    (manager : Manager) : Prop :=
  manager_sync manager force = Returned tt /\
  (opt_verbose opts = true -> exists status, manager_status manager = Returned status).

(** The manager calls [runMemoryStatus] allows itself: no search, and a
    sync only with [--index], never forced. *)
Definition statusManagerCall (index : bool) (ev : Event) : Prop :=
  match ev with
  | ManagerCall _ (OpSync force) => index = true /\ force = false
  | ManagerCall _ (OpSearch _) => False
  | _ => True
  end.

(** The index result line of an entry: the failure when the entry holds a
    non-empty index error, the completion message otherwise. *)
Definition indexLine (entry : StatusEntry) : string :=
  match whenTruthy (entry_indexError entry) with
  | Some indexError => ("Memory index failed: " ++ indexError)%string
  | None => "Memory index complete."
  end.

(** What the human-readable report logs for one entry. *)
Definition entryLogs {world : World} (opts : MemoryCommandOptions) (entry : StatusEntry) :
    list Event :=
  (if opt_index opts then [RuntimeLog (indexLine entry)] else [])
  ++ [RuntimeLog (renderStatusReport entry); RuntimeLog ""].

(** ** A concrete environment for running the code on examples *)

Module Fixture.

(** Modelled from the spec: [isTruthyEnvValue] of the absent
    [infra/env.ts]: the variable disables route-first dispatch when it
    holds any truthy value. *)
Definition isTruthyEnvValue (value : option string) : bool :=
  match value with Some s => truthy s | None => false end.

Definition digitValue (c : ascii) : option Z :=
  let n := nat_of_ascii c in
  if ((48 <=? n) && (n <=? 57))%nat then Some (Z.of_nat (n - 48)) else None.

Fixpoint parseDigits (acc : Z) (s : string) : option Z :=
  match s with
  | EmptyString => Some acc
  | String c s' =>
      match digitValue c with
      | Some d => parseDigits (10 * acc + d) s'
      | None => None
      end
  end.

(** Modelled from the spec: [parsePositiveIntOrUndefined] of the absent
    [cli/program/helpers.ts]: the value when it parses as a positive
    integer, [undefined] otherwise. *)
Definition parsePositiveIntOrUndefined (value : option string) : option Z :=
  match value with
  | Some (String c s) =>
      match parseDigits 0 (String c s) with
      | Some n => if (0 <? n)%Z then Some n else None
      | None => None
      end
  | _ => None
  end.

Definition sampleStatus : MemoryStatus :=
  mkMemoryStatus "openai" "auto" "text-embedding-3-small" ["memory"] 3 12 false
    "/state/memory.sqlite" "/work".

(** The engine of the example: indexing and searching fail for the
    agent [main] and succeed for every other agent. *)
Definition sampleManager (agentId : string) : Manager :=
  let failing := agentId =? "main" in
  mkManager
    (Returned sampleStatus)
    (Returned tt)
    (Returned (mkEmbeddingProbe true None))
    (fun _ => if failing then Thrown (JsError "disk full") else Returned tt)
    (fun _ => if failing then Thrown (JsError "index unreadable") else Returned [])
    (Returned tt).

Definition sampleConfig : Config :=
  mkConfig (Some (mkAgentsConfig (Some [mkAgentEntry "main"; mkAgentEntry "work"]))).

(** The environment of the examples, for a given configuration. *)
Definition withConfig (cfg : Config) : World :=
  Build_World
    "2026.1.0"
    isTruthyEnvValue
    parsePositiveIntOrUndefined
    (fun err => match err with JsError message => message end)
    cfg
    (fun _ => "main")
    (fun _ agentId => mkLookup (Some (sampleManager agentId)) None)
    (fun _ => "[...]")
    (fun entry => ("Memory Search (" ++ entry_agentId entry ++ ")")%string)
    (fun agentId _ => ("Memory Index (" ++ agentId ++ ")")%string)
    (fun _ => "{...}")
    (fun _ => "...").

Definition sampleWorld : World := withConfig sampleConfig.



(** A string given by its bytes. *)
Definition bytes (l : list nat) : string :=
  fold_right (fun n s => String (ascii_of_nat n) s) EmptyString l.

(** U+00A0, U+2028, U+3000 and U+FEFF in UTF-8, and U+00E9 (the letter
    e with an acute accent), which is no white space. *)
Definition NBSP : string := bytes [194; 160].
Definition LS : string := bytes [226; 128; 168].
Definition IDEOGRAPHIC_SPACE : string := bytes [227; 128; 128].
Definition BOM : string := bytes [239; 187; 191].
Definition E_ACUTE : string := bytes [195; 169].

End Fixture.

(** * Properties *)

(** The assertions of [argv.test.ts]. *)
Module ArgvTests.
Import Argv.

Example detects_help_version_flags :
  hasHelpOrVersion ["node"; "clawdbot"; "--help"] = true /\
  hasHelpOrVersion ["node"; "clawdbot"; "-V"] = true /\
  hasHelpOrVersion ["node"; "clawdbot"; "status"] = false.
Proof. repeat split. Qed.

Example extracts_command_path :
  getCommandPath ["node"; "clawdbot"; "status"; "--json"] 2 = ["status"] /\
  getCommandPath ["node"; "clawdbot"; "agents"; "list"] 2 = ["agents"; "list"] /\
  getCommandPath ["node"; "clawdbot"; "status"; "--"; "ignored"] 2 = ["status"].
Proof. repeat split. Qed.

Example returns_primary_command :
  getPrimaryCommand ["node"; "clawdbot"; "agents"; "list"] = Some "agents" /\
  getPrimaryCommand ["node"; "clawdbot"] = None.
Proof. repeat split. Qed.

Example parses_boolean_flags :
  hasFlag ["node"; "clawdbot"; "status"; "--json"] "--json" = true /\
  hasFlag ["node"; "clawdbot"; "--"; "--json"] "--json" = false.
Proof. repeat split. Qed.

Example extracts_flag_values :
  getFlagValue ["node"; "clawdbot"; "status"; "--timeout"; "5000"] "--timeout"
    = FlagString "5000" /\
  getFlagValue ["node"; "clawdbot"; "status"; "--timeout=2500"] "--timeout"
    = FlagString "2500" /\
  getFlagValue ["node"; "clawdbot"; "status"; "--timeout"] "--timeout" = FlagNull /\
  getFlagValue ["node"; "clawdbot"; "status"; "--timeout"; "--json"] "--timeout"
    = FlagNull /\
  getFlagValue ["node"; "clawdbot"; "--"; "--timeout=99"] "--timeout" = FlagUndefined.
Proof. repeat split. Qed.

Example builds_parse_argv_from_raw_args :
  buildParseArgv (mkBuildParams "clawdbot" (Some ["node"; "clawdbot"; "status"]) None)
    = ["node"; "clawdbot"; "status"] /\
  buildParseArgv (mkBuildParams "clawdbot" (Some ["clawdbot"; "status"]) None)
    = ["node"; "clawdbot"; "status"] /\
  buildParseArgv (mkBuildParams "clawdbot" (Some ["bun"; "src/entry.ts"; "status"]) None)
    = ["bun"; "src/entry.ts"; "status"].
Proof. repeat split. Qed.

Example builds_parse_argv_from_fallback_args :
  buildParseArgv (mkBuildParams "clawdbot" None (Some ["status"]))
    = ["node"; "clawdbot"; "status"].
Proof. reflexivity. Qed.

End ArgvTests.

(** ** [String.prototype.trim] on examples *)

Module TrimTests.
Import Fixture.

Example trim_ascii : trim (bytes [32; 9; 10] ++ "work" ++ bytes [13; 11; 12; 32])%string = "work".
Proof. reflexivity. Qed.

Example trim_inner_space_kept : trim " my agent " = "my agent".
Proof. reflexivity. Qed.

Example trim_blank : trim "   " = "".
Proof. reflexivity. Qed.

Example trim_nbsp_blank : trim NBSP = "".
Proof. reflexivity. Qed.

Example trim_nbsp_around : trim (NBSP ++ "work" ++ NBSP)%string = "work".
Proof. reflexivity. Qed.

Example trim_mixed :
  trim (BOM ++ " " ++ LS ++ "work" ++ IDEOGRAPHIC_SPACE ++ NBSP ++ " ")%string = "work".
Proof. reflexivity. Qed.

Example trim_mixed_blank : trim (BOM ++ LS ++ IDEOGRAPHIC_SPACE ++ NBSP)%string = "".
Proof. reflexivity. Qed.

Example trim_letter_kept :
  trim (" " ++ E_ACUTE ++ "t" ++ E_ACUTE ++ NBSP)%string = (E_ACUTE ++ "t" ++ E_ACUTE)%string.
Proof. reflexivity. Qed.

Example trim_nbsp_inside_kept : trim ("a" ++ NBSP ++ "b")%string = ("a" ++ NBSP ++ "b")%string.
Proof. reflexivity. Qed.

End TrimTests.

(** Splitting a conjunction into its conjuncts, and nothing more. *)
Ltac splits :=
  lazymatch goal with
  | |- _ /\ _ => split; [|splits]
  | _ => idtac
  end.

(** ** Strings *)

Lemma startsWith_append (p s : string) : startsWith (p ++ s) p = true.
Proof.
  unfold startsWith.
  induction p as [|c p IH]; simpl.
  - destruct s; reflexivity.
  - destruct (ascii_dec c c) as [_|ne]; [exact IH | now elim ne].
Qed.

Lemma slice_append (p s : string) : slice (String.length p) (p ++ s) = s.
Proof. induction p as [|c p IH]; simpl; [reflexivity | exact IH]. Qed.

Lemma append_assoc (a b c : string) : ((a ++ b) ++ c = a ++ (b ++ c))%string.
Proof. induction a as [|x a IH]; simpl; [reflexivity | now rewrite IH]. Qed.

Lemma length_append (a b : string) :
  String.length (a ++ b) = String.length a + String.length b.
Proof. induction a as [|x a IH]; simpl; [reflexivity | now rewrite IH]. Qed.

Lemma append_eq_self (a b : string) : (a ++ b)%string = a -> b = "".
Proof.
  intros H. apply (f_equal String.length) in H. rewrite length_append in H.
  destruct b; [reflexivity | simpl in H; lia].
Qed.

(** A token of the form [name=value] is never the terminator. *)
Lemma assignment_not_terminator (name v : string) :
  (name ++ "=" ++ v)%string <> Argv.FLAG_TERMINATOR.
Proof.
  unfold Argv.FLAG_TERMINATOR.
  destruct name as [|a [|b [|c name]]]; simpl; try discriminate;
    intros H; inversion H.
Qed.

(** ** The argv helpers *)

Section ArgvFacts.
Import Argv.

(** A token that is neither the terminator nor an occurrence of the flag
    is skipped by the value lookup. *)
Lemma getFlagValue_skip (name tok : string) (rest : list string) :
  tok <> FLAG_TERMINATOR -> tok <> name -> startsWith tok (name ++ "=") = false ->
  getFlagValue (tok :: rest) name = getFlagValue rest name.
Proof.
  intros Hterm Hname Hassign. simpl.
  apply String.eqb_neq in Hterm. apply String.eqb_neq in Hname.
  now rewrite Hterm, Hname, Hassign.
Qed.

Lemma getFlagValue_skip_prefix (name : string) (pre rest : list string) :
  (forall tok, In tok pre ->
     tok <> FLAG_TERMINATOR /\ tok <> name /\ startsWith tok (name ++ "=") = false) ->
  getFlagValue (pre ++ rest) name = getFlagValue rest name.
Proof.
  induction pre as [|tok pre IH]; intros Hpre; [reflexivity|].
  destruct (Hpre tok (or_introl eq_refl)) as (Ht & Hn & Ha).
  rewrite <- app_comm_cons, getFlagValue_skip by assumption.
  apply IH. intros t Ht'. apply Hpre. now right.
Qed.

Lemma getFlagValue_assignment (name v : string) (rest : list string) :
  getFlagValue ((name ++ "=" ++ v)%string :: rest) name = FlagString v.
Proof.
  cbn [getFlagValue].
  destruct (String.eqb_spec (name ++ "=" ++ v) FLAG_TERMINATOR) as [E|_].
  { now apply assignment_not_terminator in E. }
  destruct (String.eqb_spec (name ++ "=" ++ v) name) as [E|_].
  { apply append_eq_self in E. discriminate. }
  rewrite <- (append_assoc name "=" v), startsWith_append.
  replace (String.length name + 1) with (String.length (name ++ "=")).
  - now rewrite slice_append.
  - rewrite length_append. reflexivity.
Qed.

Lemma getFlagValue_bare (name : string) (rest : list string) :
  name <> FLAG_TERMINATOR ->
  getFlagValue (name :: rest) name =
    match rest with
    | next :: _ => if startsWith next "-" then FlagNull else FlagString next
    | [] => FlagNull
    end.
Proof.
  intros Hterm. simpl. apply String.eqb_neq in Hterm.
  now rewrite Hterm, String.eqb_refl.
Qed.

Lemma getFlagValue_terminator (name : string) (post : list string) :
  getFlagValue (FLAG_TERMINATOR :: post) name = FlagUndefined.
Proof. reflexivity. Qed.

(** Tokens scanned before a terminator decide [hasFlag]. *)
Lemma hasFlag_absent (name : string) (before post : list string) :
  ~ In name before -> hasFlag (before ++ FLAG_TERMINATOR :: post) name = false.
Proof.
  induction before as [|tok before IH]; intros Hnot; simpl; [reflexivity|].
  destruct (tok =? FLAG_TERMINATOR); [reflexivity|].
  destruct (String.eqb_spec tok name) as [E|_].
  - elim Hnot. now left.
  - apply IH. intros Hin. apply Hnot. now right.
Qed.

Lemma commandRun_terminator (pre post : list string) :
  commandRun (pre ++ FLAG_TERMINATOR :: post) = commandRun pre.
Proof.
  induction pre as [|tok pre IH]; simpl; [reflexivity|].
  destruct ((tok =? FLAG_TERMINATOR) || startsWith tok "-"); [reflexivity|].
  now rewrite IH.
Qed.

Lemma commandRun_sublist (args : list string) (tok : string) :
  In tok (commandRun args) ->
  In tok args /\ tok <> FLAG_TERMINATOR /\ startsWith tok "-" = false.
Proof.
  induction args as [|a args IH]; simpl; [tauto|].
  destruct (String.eqb_spec a FLAG_TERMINATOR) as [E|NE]; simpl; [tauto|].
  destruct (startsWith a "-") eqn:Hs; simpl; [tauto|].
  intros [<-|Hin]; [tauto|]. destruct (IH Hin) as (H1 & H2 & H3). tauto.
Qed.

Lemma scanHelpOrVersion_absent (pre post : list string) :
  (forall tok, In tok pre -> isHelpOrVersionToken tok = false) ->
  scanHelpOrVersion (pre ++ FLAG_TERMINATOR :: post) = false.
Proof.
  induction pre as [|tok pre IH]; intros Hpre; cbn [scanHelpOrVersion app];
    [reflexivity|].
  destruct (tok =? FLAG_TERMINATOR); [reflexivity|].
  assert (Htok : isHelpOrVersionToken tok = false) by (apply Hpre; now left).
  unfold isHelpOrVersionToken in Htok. rewrite Htok.
  apply IH. intros t Ht. apply Hpre. now right.
Qed.

End ArgvFacts.

Section ArgvClaims.
Import Argv.

Lemma getFlagValue_absent (name : string) (before post : list string) :
  (forall tok, In tok before -> tok <> name /\ startsWith tok (name ++ "=") = false) ->
  getFlagValue (before ++ FLAG_TERMINATOR :: post) name = FlagUndefined.
Proof.
  induction before as [|tok before IH]; intros Hbefore; [reflexivity|].
  rewrite <- app_comm_cons.
  destruct (String.eqb_spec tok FLAG_TERMINATOR) as [->|Hterm]; [reflexivity|].
  destruct (Hbefore tok (or_introl eq_refl)) as (Hn & Ha).
  rewrite getFlagValue_skip by assumption.
  apply IH. intros t Ht. apply Hbefore. now right.
Qed.

Lemma getFlagValue_never_seen (name : string) (pre : list string) :
  (forall tok, In tok pre ->
     tok <> FLAG_TERMINATOR /\ tok <> name /\ startsWith tok (name ++ "=") = false) ->
  getFlagValue pre name = FlagUndefined.
Proof.
  intros Hpre. rewrite <- (app_nil_r pre).
  now rewrite getFlagValue_skip_prefix.
Qed.

End ArgvClaims.

(** C3.  [getFlagValue argv name], where the first occurrence of the flag
    follows tokens [pre] that hold neither a terminator nor the flag:
    a token [name=v] yields the string [v] (the empty string included);
    a bare [name] yields the next token when that token does not start
    with [-], and [null] when it does or when there is no next token;
    the lookup yields [undefined] when the flag does not occur at all and
    when it occurs only after the terminator. *)
Theorem getFlagValue_cases (name : string) (pre post : list string) :
  name <> Argv.FLAG_TERMINATOR ->
  (forall tok, In tok pre ->
     tok <> Argv.FLAG_TERMINATOR /\ tok <> name /\ startsWith tok (name ++ "=") = false) ->
  (forall v, Argv.getFlagValue (pre ++ (name ++ "=" ++ v)%string :: post) name
             = FlagString v) /\
  (forall next, startsWith next "-" = false ->
     Argv.getFlagValue (pre ++ name :: next :: post) name = FlagString next) /\
  (forall next, startsWith next "-" = true ->
     Argv.getFlagValue (pre ++ name :: next :: post) name = FlagNull) /\
  Argv.getFlagValue (pre ++ [name]) name = FlagNull /\
  Argv.getFlagValue pre name = FlagUndefined /\
  Argv.getFlagValue (pre ++ Argv.FLAG_TERMINATOR :: post) name = FlagUndefined.
Proof.
  intros Hname Hpre. repeat split.
  - intros v. rewrite getFlagValue_skip_prefix by assumption.
    apply getFlagValue_assignment.
  - intros next Hnext. rewrite getFlagValue_skip_prefix by assumption.
    rewrite getFlagValue_bare by assumption. now rewrite Hnext.
  - intros next Hnext. rewrite getFlagValue_skip_prefix by assumption.
    rewrite getFlagValue_bare by assumption. now rewrite Hnext.
  - rewrite getFlagValue_skip_prefix by assumption.
    now rewrite getFlagValue_bare.
  - now apply getFlagValue_never_seen.
  - rewrite getFlagValue_skip_prefix by assumption. reflexivity.
Qed.

Lemma getFlagValue_cases_witness :
  Argv.getFlagValue ["node"; "cb"; "status"; "--x=v"; "--json"] "--x" = FlagString "v" /\
  Argv.getFlagValue ["node"; "cb"; "status"; "--x="; "--json"] "--x" = FlagString "" /\
  Argv.getFlagValue ["node"; "cb"; "status"; "--x"; "v"; "--json"] "--x" = FlagString "v" /\
  Argv.getFlagValue ["node"; "cb"; "status"; "--x"; "--y"; "--json"] "--x" = FlagNull /\
  Argv.getFlagValue ["node"; "cb"; "status"; "--x"] "--x" = FlagNull /\
  Argv.getFlagValue ["node"; "cb"; "status"] "--x" = FlagUndefined /\
  Argv.getFlagValue ["node"; "cb"; "status"; "--"; "--json"] "--x" = FlagUndefined.
Proof.
  assert (Hname : "--x" <> Argv.FLAG_TERMINATOR) by discriminate.
  assert (Hpre : forall tok, In tok ["node"; "cb"; "status"] ->
            tok <> Argv.FLAG_TERMINATOR /\ tok <> "--x" /\
            startsWith tok ("--x" ++ "=") = false).
  { intros tok [<-|[<-|[<-|[]]]]; repeat split; discriminate. }
  destruct (@getFlagValue_cases "--x" ["node"; "cb"; "status"] ["--json"] Hname Hpre)
    as (Hassign & Hnext & Hflag & Hlast & Habsent & Hafter).
  splits.
  - exact (Hassign "v").
  - exact (Hassign "").
  - exact (Hnext "v" eq_refl).
  - exact (Hflag "--y" eq_refl).
  - exact Hlast.
  - exact Habsent.
  - exact Hafter.
Defined.

(** C4.  In an argument vector [launcher :: program :: pre ++ "--" :: post]
    the tokens [post] after the terminator are never interpreted:
    [hasFlag] is false for a flag that occurs only in [post],
    [getFlagValue] is [undefined] for such a flag, [getCommandPath] is
    the path of the tokens before the terminator and holds no token that
    was not scanned before it, and [hasHelpOrVersion] is false when no
    help or version token precedes the terminator. *)
Theorem terminator_inert (launcher program name : string) (pre post : list string) :
  let before := launcher :: program :: pre in
  let argv := before ++ Argv.FLAG_TERMINATOR :: post in
  (~ In name before -> Argv.hasFlag argv name = false) /\
  ((forall tok, In tok before -> tok <> name /\ startsWith tok (name ++ "=") = false) ->
   Argv.getFlagValue argv name = FlagUndefined) /\
  (forall offset, offset <= length before ->
     Argv.getCommandPath argv offset = Argv.getCommandPath before offset /\
     forall tok, In tok (Argv.getCommandPath argv offset) ->
       In tok (skipn offset before) /\ tok <> Argv.FLAG_TERMINATOR) /\
  ((forall tok, In tok pre -> isHelpOrVersionToken tok = false) ->
   Argv.hasHelpOrVersion argv = false).
Proof.
  intros before argv.
  assert (Hpath : forall offset, offset <= length before ->
            Argv.getCommandPath argv offset = Argv.getCommandPath before offset).
  { intros offset Hoffset. unfold Argv.getCommandPath, argv.
    rewrite skipn_app. replace (offset - length before) with 0 by lia.
    apply commandRun_terminator. }
  split; [|split; [|split]].
  - apply hasFlag_absent.
  - apply getFlagValue_absent.
  - intros offset Hoffset. split; [now apply Hpath|].
    intros tok Hin. rewrite Hpath in Hin by assumption.
    apply commandRun_sublist in Hin. tauto.
  - intros Hpre. unfold Argv.hasHelpOrVersion, argv, before. cbn [skipn app].
    now apply scanHelpOrVersion_absent.
Qed.

Lemma terminator_inert_witness :
  Argv.hasFlag ["node"; "cb"; "status"; "--"; "--json"; "--help"] "--json" = false /\
  Argv.getFlagValue ["node"; "cb"; "status"; "--"; "--json"; "--help"] "--json"
    = FlagUndefined /\
  Argv.getCommandPath ["node"; "cb"; "status"; "--"; "--json"; "--help"] 2 = ["status"] /\
  Argv.hasHelpOrVersion ["node"; "cb"; "status"; "--"; "--json"; "--help"] = false.
Proof.
  destruct (terminator_inert "node" "cb" "--json" ["status"] ["--json"; "--help"])
    as (Hflag & Hvalue & Hpath & Hhelp).
  splits.
  - apply Hflag. intros [E|[E|[E|[]]]]; discriminate.
  - apply Hvalue. intros tok [<-|[<-|[<-|[]]]]; split; (discriminate || reflexivity).
  - refine (eq_trans (proj1 (Hpath 2 _)) eq_refl). simpl. lia.
  - apply Hhelp. intros tok [<-|[]]. reflexivity.
Defined.

(** C9.  [buildParseArgv]: raw arguments that start with a runtime other
    than the program name and a script come back unchanged, so that
    building again from the result changes nothing; raw arguments that
    start with the program name, and a fallback token array, come back
    with the synthetic runtime name and the program name in front of the
    remaining tokens. *)
Theorem buildParseArgv_styles
    (program runtime script : string) (rest tokens : list string)
    (fallback : option (list string)) :
  (runtime <> program ->
   let built := Argv.buildParseArgv
                  (Argv.mkBuildParams program (Some (runtime :: script :: rest)) fallback) in
   built = runtime :: script :: rest /\
   Argv.buildParseArgv (Argv.mkBuildParams program (Some built) fallback) = built) /\
  Argv.buildParseArgv (Argv.mkBuildParams program (Some (program :: rest)) fallback)
    = Argv.SYNTHETIC_RUNTIME :: program :: rest /\
  Argv.buildParseArgv (Argv.mkBuildParams program None (Some tokens))
    = Argv.SYNTHETIC_RUNTIME :: program :: tokens /\
  Argv.buildParseArgv (Argv.mkBuildParams program (Some []) (Some tokens))
    = Argv.SYNTHETIC_RUNTIME :: program :: tokens.
Proof.
  split; [|split; [|split]].
  - intros Hruntime built.
    assert (Hbuilt : built = runtime :: script :: rest).
    { unfold built, Argv.buildParseArgv; simpl.
      apply String.eqb_neq in Hruntime. now rewrite Hruntime. }
    split; [exact Hbuilt|].
    rewrite Hbuilt at 1. unfold Argv.buildParseArgv; simpl.
    apply String.eqb_neq in Hruntime. now rewrite Hruntime.
  - unfold Argv.buildParseArgv; simpl. now rewrite String.eqb_refl.
  - reflexivity.
  - reflexivity.
Qed.

Lemma buildParseArgv_styles_witness :
  Argv.buildParseArgv
    (Argv.mkBuildParams "clawdbot" (Some ["bun"; "src/entry.ts"; "status"]) None)
    = ["bun"; "src/entry.ts"; "status"] /\
  Argv.buildParseArgv
    (Argv.mkBuildParams "clawdbot" (Some ["clawdbot"; "status"]) None)
    = ["node"; "clawdbot"; "status"] /\
  Argv.buildParseArgv (Argv.mkBuildParams "clawdbot" None (Some ["status"]))
    = ["node"; "clawdbot"; "status"].
Proof.
  destruct (buildParseArgv_styles "clawdbot" "bun" "src/entry.ts" ["status"] ["status"] None)
    as (Hscript & Hdirect & Hfallback & _).
  splits.
  - apply (Hscript ltac:(discriminate)).
  - exact Hdirect.
  - exact Hfallback.
Defined.

(** ** Route-first dispatch, branch by branch *)

Section RouteFacts.
Context {argvApi : ArgvApi} {world : World}.
Variable argv : list string.
Variable p : Process.

Let path := getCommandPath argv 2.
Let primary := nth_error path 0.
Let secondary := nth_error path 1.
Let banner := EmitCliBanner VERSION (Some argv).

Lemma strictEq_not_falsy (x : option string) (s : string) :
  truthy s = true -> strictEq x s = true -> falsy x = false.
Proof.
  destruct x as [y|]; simpl; [|discriminate].
  intros Hs Hy. apply String.eqb_eq in Hy. subst y. now rewrite Hs.
Qed.

Lemma strictEq_exclusive (x : option string) (s t : string) :
  (s =? t) = false -> strictEq x s = true -> strictEq x t = false.
Proof.
  destruct x as [y|]; simpl; [|discriminate].
  intros Hst Hy. apply String.eqb_eq in Hy. now subst y.
Qed.

Lemma route_disabled :
  isTruthyEnvValue (process_env_CLAWDBOT_DISABLE_ROUTE_FIRST p) = true ->
  tryRouteCli argv p = mkRun (Returned false) p [].
Proof. intros H. unfold tryRouteCli, getProcess; unfold bind at 1; cbn [outcome after trace]. now rewrite H. Qed.

Lemma route_help :
  hasHelpOrVersion argv = true ->
  tryRouteCli argv p = mkRun (Returned false) p [].
Proof.
  intros H. unfold tryRouteCli, getProcess; unfold bind at 1; cbn [outcome after trace]. rewrite H.
  now destruct (isTruthyEnvValue _).
Qed.

Lemma route_no_primary :
  falsy primary = true ->
  tryRouteCli argv p = mkRun (Returned false) p [].
Proof.
  intros H. unfold tryRouteCli, getProcess; unfold bind at 1; cbn [outcome after trace].
  fold path. fold primary. rewrite H.
  destruct (isTruthyEnvValue _); [reflexivity|].
  now destruct (hasHelpOrVersion argv).
Qed.

Lemma route_health :
  consulted argv p -> strictEq primary "health" = true ->
  tryRouteCli argv p =
    let json := hasFlag argv "--json" in
    let verbose := hasFlag argv "--verbose" || hasFlag argv "--debug" in
    let timeout := getFlagValue argv "--timeout" in
    let setup := [banner; EnsureConfigReady false; EnsurePluginRegistryLoaded] in
    if isNull timeout then mkRun (Returned false) p setup
    else mkRun (Returned true) p
           (setup ++
            [SetVerbose verbose;
             HealthCommand
               (mkHealthOptions json
                  (parsePositiveIntOrUndefined (optionOfFlag timeout)) verbose)]).
Proof.
  intros [Henv Hhelp] Hp.
  assert (Hf := @strictEq_not_falsy primary "health" eq_refl Hp).
  unfold tryRouteCli, getProcess; unfold bind at 1; cbn [outcome after trace].
  fold path. fold primary. rewrite Henv, Hhelp, Hf, Hp.
  now destruct (isNull (getFlagValue argv "--timeout")).
Qed.

Lemma route_status :
  consulted argv p -> strictEq primary "status" = true ->
  tryRouteCli argv p =
    let json := hasFlag argv "--json" in
    let deep := hasFlag argv "--deep" in
    let all := hasFlag argv "--all" in
    let usage := hasFlag argv "--usage" in
    let verbose := hasFlag argv "--verbose" || hasFlag argv "--debug" in
    let timeout := getFlagValue argv "--timeout" in
    let setup := [banner; EnsureConfigReady false; EnsurePluginRegistryLoaded] in
    if isNull timeout then mkRun (Returned false) p setup
    else mkRun (Returned true) p
           (setup ++
            [SetVerbose verbose;
             StatusCommand
               (mkStatusOptions json deep all usage
                  (parsePositiveIntOrUndefined (optionOfFlag timeout)) verbose)]).
Proof.
  intros [Henv Hhelp] Hp.
  assert (Hf := @strictEq_not_falsy primary "status" eq_refl Hp).
  assert (H1 := @strictEq_exclusive primary "status" "health" eq_refl Hp).
  unfold tryRouteCli, getProcess; unfold bind at 1; cbn [outcome after trace].
  fold path. fold primary. rewrite Henv, Hhelp, Hf, H1, Hp.
  now destruct (isNull (getFlagValue argv "--timeout")).
Qed.

Lemma route_sessions :
  consulted argv p -> strictEq primary "sessions" = true ->
  tryRouteCli argv p =
    let json := hasFlag argv "--json" in
    let verbose := hasFlag argv "--verbose" in
    let store := getFlagValue argv "--store" in
    let active := getFlagValue argv "--active" in
    let setup := [banner; EnsureConfigReady false] in
    if isNull store || isNull active then mkRun (Returned false) p setup
    else mkRun (Returned true) p
           (setup ++
            [SetVerbose verbose;
             SessionsCommand
               (mkSessionsOptions json (optionOfFlag store) (optionOfFlag active))]).
Proof.
  intros [Henv Hhelp] Hp.
  assert (Hf := @strictEq_not_falsy primary "sessions" eq_refl Hp).
  assert (H1 := @strictEq_exclusive primary "sessions" "health" eq_refl Hp).
  assert (H2 := @strictEq_exclusive primary "sessions" "status" eq_refl Hp).
  unfold tryRouteCli, getProcess; unfold bind at 1; cbn [outcome after trace].
  fold path. fold primary. rewrite Henv, Hhelp, Hf, H1, H2, Hp.
  destruct (isNull (getFlagValue argv "--store")); [reflexivity|].
  now destruct (isNull (getFlagValue argv "--active")).
Qed.

Lemma route_agents_list :
  consulted argv p -> strictEq primary "agents" = true -> strictEq secondary "list" = true ->
  tryRouteCli argv p =
    mkRun (Returned true) p
      [banner; EnsureConfigReady true;
       AgentsListCommand
         (mkAgentsListOptions (hasFlag argv "--json") (hasFlag argv "--bindings"))].
Proof.
  intros [Henv Hhelp] Hp Hs.
  assert (Hf := @strictEq_not_falsy primary "agents" eq_refl Hp).
  assert (H1 := @strictEq_exclusive primary "agents" "health" eq_refl Hp).
  assert (H2 := @strictEq_exclusive primary "agents" "status" eq_refl Hp).
  assert (H3 := @strictEq_exclusive primary "agents" "sessions" eq_refl Hp).
  unfold tryRouteCli, getProcess; unfold bind at 1; cbn [outcome after trace].
  fold path. fold primary. fold secondary.
  now rewrite Henv, Hhelp, Hf, H1, H2, H3, Hp, Hs.
Qed.

Lemma route_memory_status :
  consulted argv p -> strictEq primary "memory" = true -> strictEq secondary "status" = true ->
  tryRouteCli argv p =
    let agent := getFlagValue argv "--agent" in
    if isNull agent then mkRun (Returned false) p [banner]
    else
      let opts := mkMemoryOptions (optionOfFlag agent) (hasFlag argv "--json")
                    (hasFlag argv "--deep") (hasFlag argv "--index")
                    (hasFlag argv "--verbose") in
      let r := runMemoryStatus opts p in
      mkRun (match outcome r with Returned _ => Returned true | Thrown e => Thrown e end)
            (after r) (banner :: trace r).
Proof.
  intros [Henv Hhelp] Hp Hs.
  assert (Hf := @strictEq_not_falsy primary "memory" eq_refl Hp).
  assert (H1 := @strictEq_exclusive primary "memory" "health" eq_refl Hp).
  assert (H2 := @strictEq_exclusive primary "memory" "status" eq_refl Hp).
  assert (H3 := @strictEq_exclusive primary "memory" "sessions" eq_refl Hp).
  assert (H4 := @strictEq_exclusive primary "memory" "agents" eq_refl Hp).
  unfold tryRouteCli, getProcess.
  unfold bind at 1. cbn [outcome after trace].
  fold path. fold primary. fold secondary.
  rewrite Henv, Hhelp, Hf, H1, H2, H3, H4, Hp, Hs. cbn [andb].
  destruct (isNull (getFlagValue argv "--agent")).
  - reflexivity.
  - unfold bind, emitCliBanner, emit, ret. cbn [outcome after trace app].
    destruct (outcome (runMemoryStatus _ p)); cbn [outcome after trace app];
      now rewrite ?app_nil_r.
Qed.

Lemma route_unmatched :
  strictEq primary "health" = false -> strictEq primary "status" = false ->
  strictEq primary "sessions" = false ->
  strictEq primary "agents" && strictEq secondary "list" = false ->
  strictEq primary "memory" && strictEq secondary "status" = false ->
  tryRouteCli argv p = mkRun (Returned false) p [].
Proof.
  intros H1 H2 H3 H4 H5.
  unfold tryRouteCli, getProcess; unfold bind at 1; cbn [outcome after trace].
  fold path. fold primary. fold secondary.
  rewrite H1, H2, H3, H4, H5.
  destruct (isTruthyEnvValue _); [reflexivity|].
  destruct (hasHelpOrVersion argv); [reflexivity|].
  now destruct (falsy primary).
Qed.

End RouteFacts.

(** ** Invariants of runs *)

Section Keeps.
Variable I : Process -> Prop.
Variable P : Event -> Prop.

Lemma keeps_ret {A : Type} (a : A) : keeps I P (ret a).
Proof. intros p Hp. split; [exact Hp | constructor]. Qed.

Lemma keeps_getProcess : keeps I P getProcess.
Proof. intros p Hp. split; [exact Hp | constructor]. Qed.

Lemma keeps_emit (ev : Event) : P ev -> keeps I P (emit ev).
Proof. intros Hev p Hp. split; [exact Hp | now repeat constructor]. Qed.

Lemma keeps_call {A : Type} (ev : Event) (result : Outcome A) :
  P ev -> keeps I P (call ev result).
Proof. intros Hev p Hp. split; [exact Hp | now repeat constructor]. Qed.

Lemma keeps_bind {A B : Type} (m : M A) (k : A -> M B) :
  keeps I P m -> (forall a, keeps I P (k a)) -> keeps I P (bind m k).
Proof.
  intros Hm Hk p Hp. destruct (Hm p Hp) as [Hi Ht].
  unfold bind. destruct (outcome (m p)) as [a|e]; cbn [after trace].
  - destruct (Hk a _ Hi) as [Hi' Ht']. split; [exact Hi'|].
    apply Forall_app. now split.
  - now split.
Qed.

Lemma keeps_tryCatch {A : Type} (body : M A) (handler : Exn -> M A) :
  keeps I P body -> (forall e, keeps I P (handler e)) -> keeps I P (tryCatch body handler).
Proof.
  intros Hb Hh p Hp. destruct (Hb p Hp) as [Hi Ht].
  unfold tryCatch. destruct (outcome (body p)) as [a|e]; cbn [after trace].
  - now split.
  - destruct (Hh e _ Hi) as [Hi' Ht']. split; [exact Hi'|].
    apply Forall_app. now split.
Qed.

Lemma keeps_tryFinally {A : Type} (body : M A) (cleanup : M unit) :
  keeps I P body -> keeps I P cleanup -> keeps I P (tryFinally body cleanup).
Proof.
  intros Hb Hc p Hp. destruct (Hb p Hp) as [Hi Ht].
  destruct (Hc _ Hi) as [Hi' Ht'].
  unfold tryFinally. destruct (outcome (cleanup _)); cbn [after trace];
    (split; [exact Hi' | apply Forall_app; now split]).
Qed.

Lemma keeps_forOf {A S : Type} (xs : list A) (body : A -> S -> M S) (s : S) :
  (forall x s', keeps I P (body x s')) -> keeps I P (forOf xs body s).
Proof.
  intros Hbody. revert s.
  induction xs as [|x xs IH]; intros s; cbn [forOf].
  - apply keeps_ret.
  - apply keeps_bind; [apply Hbody | intros s'; apply IH].
Qed.

Lemma keeps_setTitle (t : string) :
  (forall p, I p ->
     I (mkProcess (process_argv p) (process_env_CLAWDBOT_DISABLE_ROUTE_FIRST p)
          (Some t) (process_exitCode p))) ->
  keeps I P (setTitle t).
Proof. intros H p Hp. split; [now apply H | constructor]. Qed.

Lemma keeps_setExitCode (n : Z) :
  (forall p, I p ->
     I (mkProcess (process_argv p) (process_env_CLAWDBOT_DISABLE_ROUTE_FIRST p)
          (process_title p) (Some n))) ->
  keeps I P (setExitCode n).
Proof. intros H p Hp. split; [now apply H | constructor]. Qed.

End Keeps.

Section Returns.

Lemma returns_ret {A : Type} (a : A) : returns (ret a).
Proof. intros p. now exists a. Qed.

Lemma returns_emit (ev : Event) : returns (emit ev).
Proof. intros p. now exists tt. Qed.

Lemma returns_call {A : Type} (ev : Event) (a : A) : returns (call ev (Returned a)).
Proof. intros p. now exists a. Qed.

Lemma returns_setExitCode (n : Z) : returns (setExitCode n).
Proof. intros p. now exists tt. Qed.

Lemma returns_bind {A B : Type} (m : M A) (k : A -> M B) :
  returns m -> (forall a, returns (k a)) -> returns (bind m k).
Proof.
  intros Hm Hk p. destruct (Hm p) as [a Ha]. unfold bind. rewrite Ha.
  cbn [outcome]. apply Hk.
Qed.

Lemma returns_tryCatch {A : Type} (body : M A) (handler : Exn -> M A) :
  (forall e, returns (handler e)) -> returns (tryCatch body handler).
Proof.
  intros Hh p. unfold tryCatch. destruct (outcome (body p)) as [a|e] eqn:Hb.
  - exists a. exact Hb.
  - cbn [outcome]. apply Hh.
Qed.

Lemma returns_tryFinally {A : Type} (body : M A) (cleanup : M unit) :
  returns body -> returns cleanup -> returns (tryFinally body cleanup).
Proof.
  intros Hb Hc p. unfold tryFinally.
  destruct (Hc (after (body p))) as [u Hu]. rewrite Hu. cbn [outcome]. apply Hb.
Qed.

Lemma returns_forOf {A S : Type} (xs : list A) (body : A -> S -> M S) (s : S) :
  (forall x s', returns (body x s')) -> returns (forOf xs body s).
Proof.
  intros Hbody. revert s.
  induction xs as [|x xs IH]; intros s; cbn [forOf].
  - apply returns_ret.
  - apply returns_bind; [apply Hbody | intros s'; apply IH].
Qed.

End Returns.

(** One step of a [keeps] or [returns] derivation, following the shape of
    the code. *)
Ltac run_step :=
  first
    [ apply keeps_ret | apply keeps_getProcess
    | apply keeps_bind; [|intros ?]
    | apply keeps_tryCatch; [|intros ?]
    | apply keeps_tryFinally
    | apply keeps_forOf; intros ? ?
    | apply keeps_emit | apply keeps_call
    | apply keeps_setExitCode; intros ? ?; first [exact I | reflexivity]
    | apply returns_ret | apply returns_emit | apply returns_call
    | apply returns_setExitCode
    | apply returns_bind; [|intros ?]
    | apply returns_tryCatch; intros ?
    | apply returns_tryFinally
    | apply returns_forOf; intros ? ? ].

Ltac run_cases :=
  match goal with
  | |- keeps _ _ (if ?b then _ else _) => destruct b
  | |- keeps _ _ (match ?x with _ => _ end) => destruct x
  | |- returns (if ?b then _ else _) => destruct b
  | |- returns (match ?x with _ => _ end) => destruct x
  end.

(** ** What [runMemoryStatus] asks of the readiness check *)

Lemma readinessChecks_none (t : list Event) :
  Forall notReadiness t -> readinessChecks t = [].
Proof.
  induction 1 as [|ev t Hev _ IH]; [reflexivity|].
  unfold readinessChecks in *. cbn [flat_map]. rewrite IH.
  now destruct ev.
Qed.

Lemma agentsOperatedOn_none (t : list Event) :
  Forall notLookup t -> agentsOperatedOn t = [].
Proof.
  induction 1 as [|ev t Hev _ IH]; [reflexivity|].
  unfold agentsOperatedOn in *. cbn [flat_map]. rewrite IH.
  now destruct ev.
Qed.

Ltac run_unfold :=
  progress
    (unfold withManager, getManager, managerCall, onMissing, onCloseError,
       withProgress, withProgressTotals, statusRun, indexRun, searchRun,
       printStatusEntry, runtimeLog, runtimeError, setVerbose,
       ensureConfigReady, emitCliBanner; cbv zeta).

Ltac run_auto :=
  repeat first [ run_step | run_cases | run_unfold
               | exact I | (intros; exact I) ].

Section MemoryFacts.
Context {world : World}.

(** After its first call, [runMemoryStatus] does not come back to the
    readiness check. *)
Lemma runMemoryStatus_readiness (opts : MemoryCommandOptions) (p : Process) :
  readinessChecks (trace (runMemoryStatus opts p)) = [false].
Proof.
  unfold runMemoryStatus, ensureConfigReady, emit.
  unfold bind at 1. cbn [outcome after trace].
  unfold readinessChecks. rewrite flat_map_app. cbn [flat_map app].
  f_equal. apply readinessChecks_none.
  match goal with
  | |- Forall _ (trace (?m p)) =>
      assert (H : keeps anyProcess notReadiness m); [|exact (proj2 (H p I))]
  end.
  run_auto.
Qed.

End MemoryFacts.

(** ** The fast-path table and the tests of the dispatcher *)

Lemma onFastPath_tests (path : list string) :
  onFastPath path =
    strictEq (nth_error path 0) "health"
    || strictEq (nth_error path 0) "status"
    || strictEq (nth_error path 0) "sessions"
    || strictEq (nth_error path 0) "agents" && strictEq (nth_error path 1) "list"
    || strictEq (nth_error path 0) "memory" && strictEq (nth_error path 1) "status".
Proof.
  unfold onFastPath, FAST_PATHS, beginsWith.
  destruct path as [|a [|b rest]];
    cbn [existsb length firstn eqStrings nth_error strictEq];
    repeat match goal with
           | |- context [String.eqb ?x ?y] => destruct (String.eqb x y)
           end;
    reflexivity.
Qed.

Section RouteClaims.
Context {argvApi : ArgvApi} {world : World}.
Variable argv : list string.
Variable p : Process.

Let path := getCommandPath argv 2.
Let primary := nth_error path 0.
Let secondary := nth_error path 1.

Lemma route_true_on_fast_path :
  outcome (tryRouteCli argv p) = Returned true ->
  consulted argv p /\ onFastPath path = true.
Proof.
  intros Htrue.
  destruct (isTruthyEnvValue (process_env_CLAWDBOT_DISABLE_ROUTE_FIRST p)) eqn:Henv.
  { rewrite route_disabled in Htrue by assumption. discriminate. }
  destruct (hasHelpOrVersion argv) eqn:Hhelp.
  { rewrite route_help in Htrue by assumption. discriminate. }
  split; [now split|].
  destruct (onFastPath path) eqn:Hfast; [reflexivity|].
  rewrite onFastPath_tests in Hfast. fold primary secondary in Hfast.
  repeat (apply orb_false_iff in Hfast; destruct Hfast as [Hfast ?]).
  rewrite route_unmatched in Htrue by assumption. discriminate.
Qed.

Lemma route_false_off_fast_path :
  isTruthyEnvValue (process_env_CLAWDBOT_DISABLE_ROUTE_FIRST p) = true \/
  hasHelpOrVersion argv = true \/ path = [] \/ onFastPath path = false ->
  tryRouteCli argv p = mkRun (Returned false) p [].
Proof.
  intros [Henv|[Hhelp|[Hempty|Hfast]]].
  - now apply route_disabled.
  - now apply route_help.
  - apply route_no_primary. fold path. now rewrite Hempty.
  - rewrite onFastPath_tests in Hfast. fold primary secondary in Hfast.
    repeat (apply orb_false_iff in Hfast; destruct Hfast as [Hfast ?]).
    now apply route_unmatched.
Qed.

Lemma route_null_lookup :
  nullLookup argv = true ->
  outcome (tryRouteCli argv p) = Returned false /\
  after (tryRouteCli argv p) = p /\
  forallb isSetup (trace (tryRouteCli argv p)) = true.
Proof.
  intros Hnull.
  destruct (isTruthyEnvValue (process_env_CLAWDBOT_DISABLE_ROUTE_FIRST p)) eqn:Henv.
  { now rewrite route_disabled. }
  destruct (hasHelpOrVersion argv) eqn:Hhelp.
  { now rewrite route_help. }
  assert (Hc : consulted argv p) by now split.
  unfold nullLookup in Hnull. fold path primary secondary in Hnull.
  destruct (strictEq primary "health") eqn:Hhealth.
  { cbn [orb] in Hnull. rewrite (route_health Hc Hhealth). cbv zeta.
    now rewrite Hnull. }
  destruct (strictEq primary "status") eqn:Hstatus.
  { cbn [orb] in Hnull. rewrite (route_status Hc Hstatus). cbv zeta.
    now rewrite Hnull. }
  cbn [orb] in Hnull.
  destruct (strictEq primary "sessions") eqn:Hsessions.
  { rewrite (route_sessions Hc Hsessions). cbv zeta. now rewrite Hnull. }
  destruct (strictEq primary "memory" && strictEq secondary "status") eqn:Hmemory;
    [|discriminate].
  apply andb_true_iff in Hmemory. destruct Hmemory as [Hm Hs].
  rewrite (route_memory_status Hc Hm Hs). cbv zeta. now rewrite Hnull.
Qed.

(** The runs on the health and the status path, and the [timeoutMs] their
    handler is given. *)
Lemma route_timeout :
  consulted argv p ->
  strictEq primary "health" = true \/ strictEq primary "status" = true ->
  let timeout := getFlagValue argv "--timeout" in
  let timeoutMs := parsePositiveIntOrUndefined (optionOfFlag timeout) in
  let r := tryRouteCli argv p in
  outcome r = Returned (negb (isNull timeout)) /\
  (isNull timeout = true -> existsb isHandler (trace r) = false) /\
  (isNull timeout = false ->
   exists setup handler,
     trace r = setup ++ [handler] /\ existsb isHandler setup = false /\
     isHandler handler = true /\ timeoutOf handler = Some timeoutMs /\
     (strictEq primary "health" = true ->
      exists json verbose,
        handler = HealthCommand (mkHealthOptions json timeoutMs verbose)) /\
     (strictEq primary "status" = true ->
      exists json deep all usage verbose,
        handler = StatusCommand
                    (mkStatusOptions json deep all usage timeoutMs verbose))) /\
  (forall ev t, In ev (trace r) -> timeoutOf ev = Some t -> t = timeoutMs).
Proof.
  intros Hc [Hhealth|Hstatus] timeout timeoutMs r; unfold r.
  - rewrite (route_health Hc Hhealth). cbv zeta. fold timeout. fold timeoutMs.
    destruct (isNull timeout); cbn [outcome trace app negb]; splits;
      try reflexivity; try discriminate.
    + intros ev t Hin Ht. cbn [In] in Hin.
      repeat (destruct Hin as [<-|Hin]; [discriminate Ht|]). contradiction.
    + intros _. eexists [_; _; _; _], _. splits; try reflexivity.
      * intros _. now eexists _, _.
      * intros Hs. fold primary in Hhealth.
        rewrite (@strictEq_exclusive primary "health" "status" eq_refl Hhealth) in Hs.
        discriminate.
    + intros ev t Hin Ht. cbn [In] in Hin.
      destruct Hin as [<-|[<-|[<-|[<-|[<-|[]]]]]]; try discriminate Ht.
      cbn [timeoutOf health_timeoutMs] in Ht. now injection Ht as <-.
  - rewrite (route_status Hc Hstatus). cbv zeta. fold timeout. fold timeoutMs.
    destruct (isNull timeout); cbn [outcome trace app negb]; splits;
      try reflexivity; try discriminate.
    + intros ev t Hin Ht. cbn [In] in Hin.
      repeat (destruct Hin as [<-|Hin]; [discriminate Ht|]). contradiction.
    + intros _. eexists [_; _; _; _], _. splits; try reflexivity.
      * intros Hh. fold primary in Hstatus.
        rewrite (@strictEq_exclusive primary "status" "health" eq_refl Hstatus) in Hh.
        discriminate.
      * intros _. now eexists _, _, _, _, _.
    + intros ev t Hin Ht. cbn [In] in Hin.
      destruct Hin as [<-|[<-|[<-|[<-|[<-|[]]]]]]; try discriminate Ht.
      cbn [timeoutOf status_timeoutMs] in Ht. now injection Ht as <-.
Qed.

Lemma route_readiness :
  consulted argv p ->
  let r := tryRouteCli argv p in
  (strictEq primary "agents" && strictEq secondary "list" = true ->
   readinessChecks (trace r) = [true]) /\
  (strictEq primary "health" = true \/ strictEq primary "status" = true \/
   strictEq primary "sessions" = true ->
   readinessChecks (trace r) = [false]) /\
  (strictEq primary "memory" && strictEq secondary "status" = true ->
   isNull (getFlagValue argv "--agent") = false ->
   readinessChecks (trace r) = [false]) /\
  (outcome r = Returned true ->
   readinessChecks (trace r) =
     [strictEq primary "agents" && strictEq secondary "list"]).
Proof.
  intros Hc r.
  assert (Hagents : strictEq primary "agents" && strictEq secondary "list" = true ->
                    readinessChecks (trace r) = [true]).
  { intros H. apply andb_true_iff in H. destruct H as [Ha Hl].
    unfold r. now rewrite (route_agents_list Hc Ha Hl). }
  assert (Hplain : strictEq primary "health" = true \/ strictEq primary "status" = true \/
                   strictEq primary "sessions" = true ->
                   readinessChecks (trace r) = [false]).
  { unfold r. intros [H|[H|H]].
    - rewrite (route_health Hc H). cbv zeta.
      now destruct (isNull (getFlagValue argv "--timeout")).
    - rewrite (route_status Hc H). cbv zeta.
      now destruct (isNull (getFlagValue argv "--timeout")).
    - rewrite (route_sessions Hc H). cbv zeta.
      now destruct (isNull (getFlagValue argv "--store") ||
                    isNull (getFlagValue argv "--active")). }
  assert (Hmemory : strictEq primary "memory" && strictEq secondary "status" = true ->
                    isNull (getFlagValue argv "--agent") = false ->
                    readinessChecks (trace r) = [false]).
  { intros H Hagent. apply andb_true_iff in H. destruct H as [Hm Hs].
    unfold r. rewrite (route_memory_status Hc Hm Hs). cbv zeta. rewrite Hagent.
    cbn [trace]. unfold readinessChecks. cbn [flat_map app].
    apply runMemoryStatus_readiness. }
  splits; try assumption.
  intros Htrue.
  destruct (strictEq primary "agents" && strictEq secondary "list") eqn:Ha;
    [now apply Hagents|].
  destruct (strictEq primary "health") eqn:Hh; [apply Hplain; now left|].
  destruct (strictEq primary "status") eqn:Hs; [apply Hplain; now right; left|].
  destruct (strictEq primary "sessions") eqn:Hse; [apply Hplain; now right; right|].
  destruct (strictEq primary "memory" && strictEq secondary "status") eqn:Hm.
  - apply Hmemory; [reflexivity|].
    destruct (isNull (getFlagValue argv "--agent")) eqn:Hagent; [|reflexivity].
    apply andb_true_iff in Hm. destruct Hm as [Hm1 Hm2].
    unfold r in Htrue. rewrite (route_memory_status Hc Hm1 Hm2) in Htrue.
    cbv zeta in Htrue. rewrite Hagent in Htrue. discriminate.
  - unfold r in Htrue. rewrite route_unmatched in Htrue by assumption. discriminate.
Qed.

End RouteClaims.

(** C1.  [tryRouteCli] returns [true] only when it was consulted and the
    command path at offset 2 begins with an entry of the fast-path table;
    it returns [false], without any effect, when the escape-hatch variable
    is truthy, when a help or version token is present, when the command
    path is empty and when the path matches no entry of the table.
    With the argv helpers of the specification:
    [node cb agents list --json] returns [true] after invoking the
    agents-list handler with [{json: true, bindings: false}], and
    [node cb frobnicate] and [node cb --help] return [false]. *)
Theorem tryRouteCli_dispatch
    (argvApi : ArgvApi) (world : World) (argv : list string) (p : Process) :
  let disabled := isTruthyEnvValue (process_env_CLAWDBOT_DISABLE_ROUTE_FIRST p) in
  let path := getCommandPath argv 2 in
  (outcome (tryRouteCli argv p) = Returned true ->
   disabled = false /\ hasHelpOrVersion argv = false /\ onFastPath path = true) /\
  (disabled = true \/ hasHelpOrVersion argv = true \/ path = [] \/ onFastPath path = false ->
   tryRouteCli argv p = mkRun (Returned false) p []) /\
  (disabled = false ->
   let agentsList := ["node"; "cb"; "agents"; "list"; "--json"] in
   @tryRouteCli specArgv world agentsList p =
     mkRun (Returned true) p
       [EmitCliBanner VERSION (Some agentsList);
        EnsureConfigReady true;
        AgentsListCommand (mkAgentsListOptions true false)]) /\
  @tryRouteCli specArgv world ["node"; "cb"; "frobnicate"] p = mkRun (Returned false) p [] /\
  @tryRouteCli specArgv world ["node"; "cb"; "--help"] p = mkRun (Returned false) p [].
Proof.
  intros disabled path. splits.
  - intros Htrue.
    destruct (@route_true_on_fast_path argvApi world argv p Htrue) as [[He Hh] Hf].
    now splits.
  - apply route_false_off_fast_path.
  - intros Hoff agentsList.
    apply (@route_agents_list specArgv world agentsList p); try reflexivity.
    split; [exact Hoff | reflexivity].
  - apply (@route_false_off_fast_path specArgv world). right; right; right. reflexivity.
  - apply (@route_help specArgv world). reflexivity.
Qed.

Lemma tryRouteCli_dispatch_witness :
  let argv := ["node"; "cb"; "agents"; "list"; "--json"] in
  let p := startProcess argv None in
  Argv.getCommandPath argv 2 = ["agents"; "list"] /\
  @tryRouteCli specArgv Fixture.sampleWorld argv p =
    mkRun (Returned true) p
      [EmitCliBanner "2026.1.0" (Some argv);
       EnsureConfigReady true;
       AgentsListCommand (mkAgentsListOptions true false)] /\
  @tryRouteCli specArgv Fixture.sampleWorld ["node"; "cb"; "status"; "--help"] p =
    mkRun (Returned false) p [].
Proof.
  intros argv p.
  destruct (tryRouteCli_dispatch specArgv Fixture.sampleWorld
              ["node"; "cb"; "status"; "--help"] p)
    as (_ & Hfalse & Hagents & _).
  splits.
  - reflexivity.
  - exact (Hagents eq_refl).
  - apply Hfalse. right; left. reflexivity.
Defined.

(** C2.  When a value-flag lookup that the fast path of [argv] performs
    ([--timeout] on health and status, [--store] or [--active] on
    sessions, [--agent] on memory status) returns [null], [tryRouteCli]
    returns [false]; the process is unchanged and only set-up calls
    (banner, readiness check, plugin registry) were made: no handler was
    invoked.  With the argv helpers of the specification,
    [node cb status --timeout] returns [false]. *)
Theorem tryRouteCli_null_lookup
    (argvApi : ArgvApi) (world : World) (argv : list string) (p : Process) :
  (nullLookup argv = true ->
   outcome (tryRouteCli argv p) = Returned false /\
   after (tryRouteCli argv p) = p /\
   forallb isSetup (trace (tryRouteCli argv p)) = true /\
   existsb isHandler (trace (tryRouteCli argv p)) = false) /\
  outcome (@tryRouteCli specArgv world ["node"; "cb"; "status"; "--timeout"] p)
    = Returned false.
Proof.
  assert (Hsetup : forall t, forallb isSetup t = true -> existsb isHandler t = false).
  { induction t as [|ev t IH]; [reflexivity|]. cbn [forallb existsb].
    intros H. apply andb_true_iff in H. destruct H as [Hev Ht].
    rewrite (IH Ht). now destruct ev. }
  split.
  - intros Hnull.
    destruct (@route_null_lookup argvApi world argv p Hnull) as (Ho & Ha & Ht).
    splits; try assumption. now apply Hsetup.
  - apply (@route_null_lookup specArgv world). reflexivity.
Qed.

Lemma tryRouteCli_null_lookup_witness :
  let argv := ["node"; "cb"; "sessions"; "--store"; "--json"] in
  let p := startProcess argv None in
  Argv.getFlagValue argv "--store" = FlagNull /\
  outcome (@tryRouteCli specArgv Fixture.sampleWorld argv p) = Returned false /\
  existsb isHandler (trace (@tryRouteCli specArgv Fixture.sampleWorld argv p)) = false.
Proof.
  intros argv p.
  destruct (tryRouteCli_null_lookup specArgv Fixture.sampleWorld argv p) as (Hnull & _).
  destruct (Hnull eq_refl) as (Ho & _ & _ & Hh).
  splits; [reflexivity | exact Ho | exact Hh].
Defined.

(** C5, as stated, fails: on [node cb health --timeout abc] the value of
    [--timeout] is present and does not parse as a positive integer, yet
    the fast path does not abort: the health handler is invoked, without
    a timeout, and [tryRouteCli] returns [true]. *)
Lemma timeout_unparsable_not_aborted :
  let argv := ["node"; "cb"; "health"; "--timeout"; "abc"] in
  let p := startProcess argv None in
  Argv.getFlagValue argv "--timeout" = FlagString "abc" /\
  Fixture.parsePositiveIntOrUndefined (Some "abc") = None /\
  @tryRouteCli specArgv Fixture.sampleWorld argv p =
    mkRun (Returned true) p
      [EmitCliBanner "2026.1.0" (Some argv);
       EnsureConfigReady false;
       EnsurePluginRegistryLoaded;
       SetVerbose false;
       HealthCommand (mkHealthOptions false None false)].
Proof. intros argv p. splits; reflexivity. Qed.

(** C5, amended.  On the health and status fast paths [tryRouteCli]
    aborts exactly when the [--timeout] lookup returns [null], and then
    no handler is invoked.  Otherwise it returns [true] after invoking
    the handler of the path exactly once, as its last call, with
    [timeoutMs] equal to [parsePositiveIntOrUndefined] of the looked-up
    value; no handler call of the run carries another timeout.  So a
    value that is present and does not parse as a positive integer does
    not abort the fast path: the handler is invoked with [timeoutMs]
    undefined.  With a [parsePositiveIntOrUndefined] that yields positive
    integers only, every timeout a handler is given is undefined or a
    positive integer. *)
Theorem tryRouteCli_timeout
    (argvApi : ArgvApi) (world : World) (argv : list string) (p : Process) :
  let primary := nth_error (getCommandPath argv 2) 0 in
  let timeout := getFlagValue argv "--timeout" in
  let timeoutMs := parsePositiveIntOrUndefined (optionOfFlag timeout) in
  let r := tryRouteCli argv p in
  isTruthyEnvValue (process_env_CLAWDBOT_DISABLE_ROUTE_FIRST p) = false ->
  hasHelpOrVersion argv = false ->
  strictEq primary "health" = true \/ strictEq primary "status" = true ->
  outcome r = Returned (negb (isNull timeout)) /\
  (isNull timeout = true -> existsb isHandler (trace r) = false) /\
  (isNull timeout = false ->
   exists setup handler,
     trace r = setup ++ [handler] /\ existsb isHandler setup = false /\
     isHandler handler = true /\ timeoutOf handler = Some timeoutMs /\
     (strictEq primary "health" = true ->
      exists json verbose,
        handler = HealthCommand (mkHealthOptions json timeoutMs verbose)) /\
     (strictEq primary "status" = true ->
      exists json deep all usage verbose,
        handler = StatusCommand (mkStatusOptions json deep all usage timeoutMs verbose))) /\
  (forall ev t, In ev (trace r) -> timeoutOf ev = Some t -> t = timeoutMs) /\
  (forall value, timeout = FlagString value ->
     parsePositiveIntOrUndefined (Some value) = None ->
     outcome r = Returned true /\
     exists setup handler,
       trace r = setup ++ [handler] /\ existsb isHandler setup = false /\
       timeoutOf handler = Some None) /\
  ((forall value n, parsePositiveIntOrUndefined value = Some n -> (0 < n)%Z) ->
   forall ev t, In ev (trace r) -> timeoutOf ev = Some t ->
     t = None \/ exists n, t = Some n /\ (0 < n)%Z).
Proof.
  intros primary timeout timeoutMs r Henv Hhelp Hpath.
  destruct (@route_timeout argvApi world argv p (conj Henv Hhelp) Hpath)
    as (Hout & Hnull & Hhandler & Honly).
  fold timeout timeoutMs r in Hout, Hnull, Hhandler, Honly.
  splits; try assumption.
  - intros value Hvalue Hparse.
    assert (Hms : timeoutMs = None) by (unfold timeoutMs; now rewrite Hvalue).
    rewrite Hvalue in Hout, Hhandler. cbn [isNull negb] in Hout, Hhandler.
    split; [exact Hout|].
    destruct (Hhandler eq_refl) as (setup & handler & Htrace & Hsetup & _ & Htimeout & _).
    exists setup, handler. rewrite Hms in Htimeout. now splits.
  - intros Hpositive ev t Hin Ht.
    rewrite (Honly ev t Hin Ht). unfold timeoutMs.
    destruct (parsePositiveIntOrUndefined (optionOfFlag timeout)) as [n|] eqn:Hparse;
      [right | now left].
    exists n. split; [reflexivity|]. exact (Hpositive _ _ Hparse).
Qed.

(** The example parser yields positive integers only. *)
Lemma Fixture_parse_positive (value : option string) (n : Z) :
  Fixture.parsePositiveIntOrUndefined value = Some n -> (0 < n)%Z.
Proof.
  unfold Fixture.parsePositiveIntOrUndefined.
  destruct value as [[|c s]|]; try discriminate.
  destruct (Fixture.parseDigits 0 (String c s)) as [m|]; [|discriminate].
  destruct (0 <? m)%Z eqn:Hm; [|discriminate].
  intros H. injection H as <-. now apply Z.ltb_lt.
Qed.

Lemma tryRouteCli_timeout_witness :
  let argv := ["node"; "cb"; "status"; "--timeout=250"; "--deep"] in
  let abc := ["node"; "cb"; "health"; "--timeout"; "abc"] in
  (outcome (@tryRouteCli specArgv Fixture.sampleWorld argv (startProcess argv None))
     = Returned true /\
   exists setup handler,
     trace (@tryRouteCli specArgv Fixture.sampleWorld argv (startProcess argv None))
       = setup ++ [handler] /\
     existsb isHandler setup = false /\
     exists json deep all usage verbose,
       handler = StatusCommand (mkStatusOptions json deep all usage (Some 250%Z) verbose)) /\
  (forall ev t,
     In ev (trace (@tryRouteCli specArgv Fixture.sampleWorld argv (startProcess argv None))) ->
     timeoutOf ev = Some t -> t = None \/ exists n, t = Some n /\ (0 < n)%Z) /\
  (outcome (@tryRouteCli specArgv Fixture.sampleWorld abc (startProcess abc None))
     = Returned true /\
   exists setup handler,
     trace (@tryRouteCli specArgv Fixture.sampleWorld abc (startProcess abc None))
       = setup ++ [handler] /\
     existsb isHandler setup = false /\ timeoutOf handler = Some None).
Proof.
  intros argv abc.
  destruct (tryRouteCli_timeout specArgv Fixture.sampleWorld argv (startProcess argv None)
              eq_refl eq_refl (or_intror eq_refl))
    as (Hout & _ & Hhandler & _ & _ & Hpositive).
  destruct (tryRouteCli_timeout specArgv Fixture.sampleWorld abc (startProcess abc None)
              eq_refl eq_refl (or_introl eq_refl))
    as (_ & _ & _ & _ & Hunparsed & _).
  split; [|split].
  - split; [exact Hout|].
    destruct (Hhandler eq_refl) as (setup & handler & Htrace & Hsetup & _ & _ & _ & Hstatus).
    exists setup, handler. splits; [exact Htrace | exact Hsetup | exact (Hstatus eq_refl)].
  - exact (Hpositive Fixture_parse_positive).
  - exact (Hunparsed "abc" eq_refl eq_refl).
Defined.

(** C6.  Each fast path ensures configuration readiness with its own
    migration policy.  When [tryRouteCli] is consulted, the readiness
    check is called exactly once with migration enabled on the agents
    list path, exactly once with migration disabled on the health, status
    and sessions paths, and exactly once with migration disabled on the
    memory status path once the [--agent] lookup is not [null]: there the
    call is the one [runMemoryStatus] makes, which always passes
    [migrateState: false].  So whenever [tryRouteCli] returns [true], the
    readiness check was called once, with migration enabled exactly on
    the agents list path. *)
Theorem tryRouteCli_readiness_policy
    (argvApi : ArgvApi) (world : World) (argv : list string) (p : Process) :
  let primary := nth_error (getCommandPath argv 2) 0 in
  let secondary := nth_error (getCommandPath argv 2) 1 in
  let r := tryRouteCli argv p in
  isTruthyEnvValue (process_env_CLAWDBOT_DISABLE_ROUTE_FIRST p) = false ->
  hasHelpOrVersion argv = false ->
  (strictEq primary "agents" && strictEq secondary "list" = true ->
   readinessChecks (trace r) = [true]) /\
  (strictEq primary "health" = true \/ strictEq primary "status" = true \/
   strictEq primary "sessions" = true ->
   readinessChecks (trace r) = [false]) /\
  (strictEq primary "memory" && strictEq secondary "status" = true ->
   isNull (getFlagValue argv "--agent") = false ->
   readinessChecks (trace r) = [false]) /\
  (outcome r = Returned true ->
   readinessChecks (trace r) = [strictEq primary "agents" && strictEq secondary "list"]) /\
  (forall opts q, readinessChecks (trace (runMemoryStatus opts q)) = [false]).
Proof.
  intros primary secondary r Henv Hhelp.
  destruct (@route_readiness argvApi world argv p (conj Henv Hhelp))
    as (Hagents & Hplain & Hmemory & Htrue).
  splits; try assumption.
  intros opts q. apply runMemoryStatus_readiness.
Qed.

Lemma tryRouteCli_readiness_policy_witness :
  let agentsList := ["node"; "cb"; "agents"; "list"] in
  let memoryStatus := ["node"; "cb"; "memory"; "status"; "--agent"; "work"] in
  readinessChecks
    (trace (@tryRouteCli specArgv Fixture.sampleWorld agentsList
              (startProcess agentsList None))) = [true] /\
  readinessChecks
    (trace (@tryRouteCli specArgv Fixture.sampleWorld memoryStatus
              (startProcess memoryStatus None))) = [false].
Proof.
  intros agentsList memoryStatus. split.
  - destruct (tryRouteCli_readiness_policy specArgv Fixture.sampleWorld agentsList
                (startProcess agentsList None) eq_refl eq_refl)
      as (Hagents & _).
    exact (Hagents eq_refl).
  - destruct (tryRouteCli_readiness_policy specArgv Fixture.sampleWorld memoryStatus
                (startProcess memoryStatus None) eq_refl eq_refl)
      as (_ & _ & Hmemory & _).
    exact (Hmemory eq_refl eq_refl).
Defined.

(** ** The pre-action hook *)

Example topLevelCommand_nested :
  let program := mkCommand "clawdbot" None in
  let memory := mkCommand "memory" (Some program) in
  commandName (topLevelCommand (mkCommand "status" (Some memory))) = "memory" /\
  commandName (topLevelCommand memory) = "memory" /\
  commandName (topLevelCommand program) = "clawdbot".
Proof. repeat split. Qed.

Lemma setProcessTitleForCommand_run (actionCommand : Command) (p : Process) :
  let r := setProcessTitleForCommand actionCommand p in
  outcome r = Returned tt /\ trace r = [] /\
  process_argv (after r) = process_argv p /\
  process_exitCode (after r) = process_exitCode p /\
  process_title (after r) =
    let name := commandName (topLevelCommand actionCommand) in
    if negb (truthy name) || (name =? "clawdbot") then process_title p
    else Some ("clawdbot-" ++ name)%string.
Proof.
  unfold setProcessTitleForCommand. cbv zeta.
  destruct (negb (truthy _) || (_ =? "clawdbot")); now splits.
Qed.

Lemma bind_returned {A B : Type} (m : M A) (k : A -> M B) (p : Process) (a : A) :
  outcome (m p) = Returned a ->
  bind m k p =
    mkRun (outcome (k a (after (m p)))) (after (k a (after (m p))))
          (trace (m p) ++ trace (k a (after (m p)))).
Proof. intros H. unfold bind. now rewrite H. Qed.

Lemma bind_thrown {A B : Type} (m : M A) (k : A -> M B) (p : Process) (e : Exn) :
  outcome (m p) = Thrown e ->
  bind m k p = mkRun (Thrown e) (after (m p)) (trace (m p)).
Proof. intros H. unfold bind. now rewrite H. Qed.

Lemma preActionHook_run
    (argvApi : ArgvApi) (isReadOnlyCommand : list string -> bool)
    (programVersion : string) (actionCommand : Command) (p : Process) :
  let argv := process_argv p in
  let primary := nth_error (getCommandPath argv 1) 0 in
  preActionHook isReadOnlyCommand programVersion actionCommand p =
    mkRun (Returned tt) (after (setProcessTitleForCommand actionCommand p))
      (EmitCliBanner programVersion None ::
       (if hasHelpOrVersion argv then []
        else if strictEq primary "doctor" then []
        else [EnsureConfigReady (negb (isReadOnlyCommand argv))])).
Proof.
  intros argv primary.
  destruct (setProcessTitleForCommand_run actionCommand p)
    as (Hout & Htrace & Hargv & _ & _).
  cbv zeta in Hout, Htrace, Hargv.
  unfold preActionHook.
  rewrite (@bind_returned _ _ _ _ _ _ Hout), Htrace.
  unfold emitCliBanner, emit, getProcess, bind, ensureConfigReady, ret.
  cbn [outcome after trace app].
  rewrite Hargv. fold argv. fold primary.
  destruct (hasHelpOrVersion argv); [reflexivity|].
  now destruct (strictEq primary "doctor").
Qed.

(** The run of the hook over any argv helpers: the process-title step,
    the banner, and then the readiness check unless the invocation holds
    a help or version token or the first element of
    [getCommandPath(argv, 1)] is [doctor]. *)
Lemma preActionHook_readiness
    (argvApi : ArgvApi) (isReadOnlyCommand : list string -> bool)
    (programVersion : string) (actionCommand : Command) (p : Process) :
  let argv := process_argv p in
  let primary := nth_error (getCommandPath argv 1) 0 in
  let r := preActionHook isReadOnlyCommand programVersion actionCommand p in
  outcome r = Returned tt /\
  after r = after (setProcessTitleForCommand actionCommand p) /\
  trace r =
    EmitCliBanner programVersion None ::
    (if hasHelpOrVersion argv then []
     else if strictEq primary "doctor" then []
     else [EnsureConfigReady (negb (isReadOnlyCommand argv))]).
Proof.
  intros argv primary r. unfold r.
  rewrite preActionHook_run. now splits.
Qed.




(** ** Loops over agents *)

Section Loops.
Context {A S : Type}.
Variable body : A -> S -> M S.

Lemma forOf_cons (x : A) (xs : list A) (s : S) (p : Process) :
  forOf (x :: xs) body s p = bind (body x s) (fun s' => forOf xs body s') p.
Proof. reflexivity. Qed.

(** An event of one iteration is an event of the loop, when no
    iteration throws. *)
Lemma forOf_trace_In (ev : Event) (a : A) :
  (forall x s, returns (body x s)) ->
  (forall s p, In ev (trace (body a s p))) ->
  forall xs s p, In a xs -> In ev (trace (forOf xs body s p)).
Proof.
  intros Hret Hev. induction xs as [|x xs IH]; intros s p Hin; [contradiction|].
  rewrite forOf_cons. destruct (Hret x s p) as [s' Hs'].
  rewrite (@bind_returned _ _ _ _ _ _ Hs'). cbn [trace].
  apply in_or_app. destruct Hin as [->|Hin].
  - left. apply Hev.
  - right. now apply IH.
Qed.

(** An exit code of 1 set by one iteration is the exit code after the
    loop, when no iteration throws or sets another code. *)
Lemma forOf_exitCode (a : A) :
  (forall x s, returns (body x s)) ->
  (forall x s, keeps exitCodeIsOne anyEvent (body x s)) ->
  (forall s p, exitCodeIsOne (after (body a s p))) ->
  forall xs s p, In a xs -> exitCodeIsOne (after (forOf xs body s p)).
Proof.
  intros Hret Hkeep Hset. induction xs as [|x xs IH]; intros s p Hin; [contradiction|].
  rewrite forOf_cons. destruct (Hret x s p) as [s' Hs'].
  rewrite (@bind_returned _ _ _ _ _ _ Hs'). cbn [after].
  destruct Hin as [->|Hin].
  - apply (keeps_forOf (I := exitCodeIsOne) (P := anyEvent)); [apply Hkeep | apply Hset].
  - now apply IH.
Qed.

End Loops.

Section AgentLoops.
Context {S : Type}.
Variable body : string -> S -> M S.

(** Every iteration asks for the manager of its own agent, once. *)
Hypothesis body_lookup :
  forall a s p, agentsOperatedOn (trace (body a s p)) = [a].


Lemma forOf_agents_returned (ids : list string) (s : S) (p : Process) (v : S) :
  outcome (forOf ids body s p) = Returned v ->
  agentsOperatedOn (trace (forOf ids body s p)) = ids.
Proof.
  revert s p. induction ids as [|a ids IH]; intros s p; [reflexivity|].
  rewrite forOf_cons. destruct (outcome (body a s p)) as [s'|e] eqn:Hout.
  - rewrite (@bind_returned _ _ _ _ _ _ Hout). cbn [trace outcome].
    intros Hv. unfold agentsOperatedOn in *.
    rewrite flat_map_app, (IH _ _ Hv), body_lookup. reflexivity.
  - rewrite (@bind_thrown _ _ _ _ _ _ Hout). discriminate.
Qed.

End AgentLoops.

(** ** Sequencing and exception handling, step by step *)

Lemma bind_emit {B : Type} (ev : Event) (k : unit -> M B) (p : Process) :
  bind (emit ev) k p =
    let r := k tt p in mkRun (outcome r) (after r) (ev :: trace r).
Proof. reflexivity. Qed.

Lemma bind_outcome_thrown {A B : Type} (m : M A) (k : A -> M B) (p : Process) (e : Exn) :
  outcome (m p) = Thrown e -> outcome (bind m k p) = Thrown e.
Proof. intros H. unfold bind. now rewrite H. Qed.

Lemma bind_outcome_then {A B : Type} (m : M A) (k : A -> M B) (p : Process)
    (a : A) (o : Outcome B) :
  outcome (m p) = Returned a -> outcome (k a (after (m p))) = o ->
  outcome (bind m k p) = o.
Proof. intros H Hk. unfold bind. now rewrite H. Qed.

Lemma tryCatch_thrown {A : Type} (body : M A) (handler : Exn -> M A) (p : Process)
    (e : Exn) :
  outcome (body p) = Thrown e ->
  tryCatch body handler p =
    mkRun (outcome (handler e (after (body p)))) (after (handler e (after (body p))))
          (trace (body p) ++ trace (handler e (after (body p)))).
Proof. intros H. unfold tryCatch. now rewrite H. Qed.

Lemma tryFinally_trace_In {A : Type} (body : M A) (cleanup : M unit) (p : Process)
    (ev : Event) :
  In ev (trace (body p)) -> In ev (trace (tryFinally body cleanup p)).
Proof.
  intros H. unfold tryFinally.
  destruct (outcome (cleanup _)); cbn [trace]; apply in_or_app; now left.
Qed.

Lemma tryFinally_exitCode {A : Type} (body : M A) (cleanup : M unit) (p : Process) :
  exitCodeIsOne (after (body p)) -> keeps exitCodeIsOne anyEvent cleanup ->
  exitCodeIsOne (after (tryFinally body cleanup p)).
Proof.
  intros H Hc. destruct (Hc _ H) as [Hexit _]. unfold tryFinally.
  now destruct (outcome (cleanup _)).
Qed.

(** ** The memory commands, one agent at a time *)

Lemma bind_ret_trace {A B : Type} (m : M A) (f : A -> B) (p : Process) :
  trace (bind m (fun a => ret (f a)) p) = trace (m p).
Proof.
  unfold bind, ret. destruct (outcome (m p)); cbn [trace]; [apply app_nil_r | reflexivity].
Qed.

Lemma bind_ret_after {A B : Type} (m : M A) (f : A -> B) (p : Process) :
  after (bind m (fun a => ret (f a)) p) = after (m p).
Proof. unfold bind, ret. now destruct (outcome (m p)). Qed.

Lemma bind_ret_returns {A B : Type} (m : M A) (f : A -> B) :
  returns m -> returns (bind m (fun a => ret (f a))).
Proof. intros Hm. apply returns_bind; [exact Hm | intros a; apply returns_ret]. Qed.

Section MemoryLoops.
Context {world : World}.

(** [close: (manager) => manager.close()] for the manager of [agentId]. *)
Let close (agentId : string) : Manager -> M unit :=
  fun manager => managerCall agentId OpClose (manager_close manager).

(** [withManager] as the three commands call it. *)
Let managed {R : Type} (cfg : Config) (agentId : string) (run : Manager -> M R) :
    M (option R) :=
  withManager (getManager cfg agentId) onMissing onCloseError (close agentId) run.

Lemma managed_lookup {R : Type} (cfg : Config) (agentId : string)
    (run : Manager -> M R) (p : Process) :
  (forall manager, keeps anyProcess notLookup (run manager)) ->
  agentsOperatedOn (trace (managed cfg agentId run p)) = [agentId].
Proof.
  intros Hrun. unfold managed, withManager, getManager, call.
  unfold bind at 1. cbn [outcome after trace].
  unfold agentsOperatedOn. rewrite flat_map_app. cbn [flat_map app].
  f_equal. apply agentsOperatedOn_none.
  match goal with
  | |- Forall _ (trace (?m p)) =>
      assert (H : keeps anyProcess notLookup m); [|exact (proj2 (H p I))]
  end.
  unfold close. run_auto. apply Hrun.
Qed.

Lemma managed_found {R : Type} (cfg : Config) (agentId : string)
  (run : Manager -> M R) (manager : Manager) (p : Process) :
lookup_manager (getMemorySearchManager cfg agentId) = Some manager ->
managed cfg agentId run p =
  let r := tryFinally (r <- run manager ;; ret (Some r))
             (tryCatch (close agentId manager) onCloseError) p in
  mkRun (outcome r) (after r) (GetMemorySearchManager agentId :: trace r).
Proof.
intros Hlookup. unfold managed, withManager, getManager, call.
unfold bind at 1. cbn [outcome after trace]. now rewrite Hlookup.
Qed.

Lemma managed_returns {R : Type} (cfg : Config) (agentId : string)
    (run : Manager -> M R) :
  (forall manager, returns (run manager)) -> returns (managed cfg agentId run).
Proof.
  intros Hrun. unfold managed, withManager, close. run_auto. apply Hrun.
Qed.

Lemma managed_keeps_exitCode {R : Type} (cfg : Config) (agentId : string)
    (run : Manager -> M R) :
  (forall manager, keeps exitCodeIsOne anyEvent (run manager)) ->
  keeps exitCodeIsOne anyEvent (managed cfg agentId run).
Proof.
  intros Hrun. unfold managed, withManager, close. run_auto. apply Hrun.
Qed.


Lemma indexRun_no_lookup opts force agentId manager :
  keeps anyProcess notLookup (indexRun opts force agentId manager).
Proof. run_auto. Qed.


Lemma indexRun_returns opts force agentId manager :
  returns (indexRun opts force agentId manager).
Proof. run_auto. Qed.

Lemma searchRun_returns query opts agentId manager :
  returns (searchRun query opts agentId manager).
Proof. run_auto. Qed.

Lemma indexRun_keeps_exitCode opts force agentId manager :
  keeps exitCodeIsOne anyEvent (indexRun opts force agentId manager).
Proof. run_auto. Qed.

End MemoryLoops.

Section MemoryClaims.
Context {world : World}.

(** One iteration of the loop of [memory index]. *)
Let indexBody (opts : MemoryCommandOptions) (force : bool) (cfg : Config) :
    string -> unit -> M unit :=
  fun agentId _ =>
    withManager (getManager cfg agentId) onMissing onCloseError
      (fun manager => managerCall agentId OpClose (manager_close manager))
      (indexRun opts force agentId) ;;
    ret tt.

Lemma indexRun_failure opts force agentId manager err (p : Process) :
indexFails opts force manager err ->
In (RuntimeError
      ("Memory index failed (" ++ agentId ++ "): " ++ formatErrorMessage err))
   (trace (indexRun opts force agentId manager p)) /\
exitCodeIsOne (after (indexRun opts force agentId manager p)).
Proof.
intros Hfails. unfold indexRun.
match goal with
| |- context [tryCatch ?body _ p] =>
    assert (Hthrown : outcome (body p) = Thrown err)
end.
{ destruct Hfails as [[Hsync Hstatus]|[Hverbose Hstatus]].
  - apply bind_outcome_then with (a := tt).
    + destruct (opt_verbose opts); [|reflexivity].
      destruct (Hstatus eq_refl) as [status Hst].
      unfold managerCall, call, runtimeLog, emit, bind. now rewrite Hst.
    + apply bind_outcome_thrown.
      unfold withProgressTotals, tryFinally, managerCall, call, ret.
      cbn [outcome after trace]. exact Hsync.
  - apply bind_outcome_thrown. rewrite Hverbose.
    apply bind_outcome_thrown. exact Hstatus. }
rewrite (@tryCatch_thrown _ _ _ _ _ Hthrown).
unfold runtimeError, emit, setExitCode, bind, exitCodeIsOne.
cbn [outcome after trace process_exitCode]. split; [|reflexivity].
apply in_or_app. right. now left.
Qed.

Lemma indexBody_failure opts force cfg agentId manager err (s : unit) (p : Process) :
lookup_manager (getMemorySearchManager cfg agentId) = Some manager ->
indexFails opts force manager err ->
In (RuntimeError
      ("Memory index failed (" ++ agentId ++ "): " ++ formatErrorMessage err))
   (trace (indexBody opts force cfg agentId s p)) /\
exitCodeIsOne (after (indexBody opts force cfg agentId s p)).
Proof.
intros Hlookup Hfails.
unfold indexBody. rewrite bind_ret_trace, bind_ret_after.
rewrite managed_found with (manager := manager) by exact Hlookup.
cbv zeta. cbn [trace after].
destruct (@indexRun_failure opts force agentId manager err p Hfails) as [Hmsg Hexit].
split.
- right. apply tryFinally_trace_In. now rewrite bind_ret_trace.
- apply tryFinally_exitCode; [now rewrite bind_ret_after|].
  unfold onCloseError. run_auto.
Qed.

Lemma memoryIndexAction_run opts force (p : Process) :
  let cfg := loadConfig in
  let loop := forOf (resolveAgentIds cfg (opt_agent opts)) (indexBody opts force cfg) tt p in
  memoryIndexAction opts force p =
    mkRun (outcome loop) (after loop) (SetVerbose (opt_verbose opts) :: trace loop).
Proof. reflexivity. Qed.

Lemma indexBody_returns opts force cfg agentId (s : unit) :
  returns (indexBody opts force cfg agentId s).
Proof.
  unfold indexBody. apply bind_ret_returns, managed_returns.
  intros manager. apply indexRun_returns.
Qed.

Lemma indexBody_lookup opts force cfg agentId (s : unit) (p : Process) :
  agentsOperatedOn (trace (indexBody opts force cfg agentId s p)) = [agentId].
Proof.
  unfold indexBody. rewrite bind_ret_trace. apply managed_lookup.
  intros manager. apply indexRun_no_lookup.
Qed.

Lemma indexBody_keeps_exitCode opts force cfg agentId (s : unit) :
  keeps exitCodeIsOne anyEvent (indexBody opts force cfg agentId s).
Proof.
  unfold indexBody. apply keeps_bind; [|intros; now apply keeps_ret].
  apply managed_keeps_exitCode. intros manager. apply indexRun_keeps_exitCode.
Qed.

Lemma memoryIndexAction_returns opts force (p : Process) :
  outcome (memoryIndexAction opts force p) = Returned tt.
Proof.
  rewrite memoryIndexAction_run. cbv zeta. cbn [outcome].
  destruct (@returns_forOf _ _ (resolveAgentIds loadConfig (opt_agent opts))
              (indexBody opts force loadConfig) tt
              (fun a s => indexBody_returns opts force loadConfig a s) p)
    as [[] H].
  exact H.
Qed.

Lemma memoryIndexAction_agents opts force (p : Process) :
  agentsOperatedOn (trace (memoryIndexAction opts force p))
    = resolveAgentIds loadConfig (opt_agent opts).
Proof.
  rewrite memoryIndexAction_run. cbv zeta. cbn [trace].
  change (agentsOperatedOn
            (trace (forOf (resolveAgentIds loadConfig (opt_agent opts))
                      (indexBody opts force loadConfig) tt p))
          = resolveAgentIds loadConfig (opt_agent opts)).
  generalize (memoryIndexAction_returns opts force p).
  rewrite memoryIndexAction_run. cbv zeta. cbn [outcome].
  apply forOf_agents_returned. intros a s q. apply indexBody_lookup.
Qed.

Lemma memoryIndexAction_failure opts force agentId manager err (p : Process) :
  In agentId (resolveAgentIds loadConfig (opt_agent opts)) ->
  lookup_manager (getMemorySearchManager loadConfig agentId) = Some manager ->
  indexFails opts force manager err ->
  In (RuntimeError
        ("Memory index failed (" ++ agentId ++ "): " ++ formatErrorMessage err))
     (trace (memoryIndexAction opts force p)) /\
  process_exitCode (after (memoryIndexAction opts force p)) = Some 1%Z.
Proof.
  intros Hin Hlookup Hfails.
  rewrite memoryIndexAction_run. cbv zeta. cbn [trace after]. split.
  - right. apply forOf_trace_In with (a := agentId); [| |exact Hin].
    + intros a s. apply indexBody_returns.
    + intros s q. now apply indexBody_failure with (manager := manager).
  - apply forOf_exitCode with (a := agentId); [| | |exact Hin].
    + intros a s. apply indexBody_returns.
    + intros a s. apply indexBody_keeps_exitCode.
    + intros s q. now apply indexBody_failure with (manager := manager) (err := err).
Qed.

Lemma memorySearchAction_returns query opts (p : Process) :
  outcome (memorySearchAction query opts p) = Returned tt.
Proof.
  assert (H : returns (memorySearchAction query opts)).
  { unfold memorySearchAction. cbv zeta. apply bind_ret_returns, managed_returns.
    intros manager. apply searchRun_returns. }
  destruct (H p) as [[] Hp]. exact Hp.
Qed.


Lemma searchRun_failure query opts agentId manager err (p : Process) :
manager_search manager query = Thrown err ->
In (RuntimeError ("Memory search failed: " ++ formatErrorMessage err))
   (trace (searchRun query opts agentId manager p)) /\
exitCodeIsOne (after (searchRun query opts agentId manager p)).
Proof.
intros Hsearch. unfold searchRun.
match goal with
| |- context [bind (tryCatch ?body ?handler) ?k p] =>
    assert (Hthrown : outcome (body p) = Thrown err);
    [|assert (Hcaught : tryCatch body handler p =
                mkRun (Returned None)
                  (mkProcess (process_argv p)
                     (process_env_CLAWDBOT_DISABLE_ROUTE_FIRST p)
                     (process_title p) (Some 1%Z))
                  [ManagerCall agentId (OpSearch query);
                   RuntimeError ("Memory search failed: " ++ formatErrorMessage err)])]
end.
{ apply bind_outcome_thrown. exact Hsearch. }
{ rewrite (@tryCatch_thrown _ _ _ _ _ Hthrown).
  unfold managerCall, call, runtimeError, emit, setExitCode, bind, ret.
  now rewrite Hsearch. }
match type of Hcaught with
| ?caught = _ =>
    assert (Hout : outcome caught = Returned None) by now rewrite Hcaught
end.
rewrite (@bind_returned _ _ _ _ _ _ Hout), Hcaught.
unfold exitCodeIsOne, ret. cbn [outcome after trace app process_exitCode].
split; [right; now left | reflexivity].
Qed.

Lemma memorySearchAction_failure query opts manager err (p : Process) :
lookup_manager
  (getMemorySearchManager loadConfig (resolveAgent loadConfig (opt_agent opts)))
  = Some manager ->
manager_search manager query = Thrown err ->
In (RuntimeError ("Memory search failed: " ++ formatErrorMessage err))
   (trace (memorySearchAction query opts p)) /\
process_exitCode (after (memorySearchAction query opts p)) = Some 1%Z.
Proof.
intros Hlookup Hsearch.
unfold memorySearchAction. cbv zeta. rewrite bind_ret_trace, bind_ret_after.
rewrite managed_found with (manager := manager) by exact Hlookup.
cbv zeta. cbn [trace after].
destruct (@searchRun_failure query opts
            (resolveAgent loadConfig (opt_agent opts)) manager err p Hsearch)
  as [Hmsg Hexit].
split.
- right. apply tryFinally_trace_In. now rewrite bind_ret_trace.
- apply tryFinally_exitCode; [now rewrite bind_ret_after|].
  unfold onCloseError. run_auto.
Qed.

End MemoryClaims.

Section StatusClaims.
Context {world : World}.

(** One iteration of the loop of [runMemoryStatus]. *)
Let statusBody (opts : MemoryCommandOptions) (cfg : Config) :
    string -> list StatusEntry -> M (list StatusEntry) :=
  fun agentId allResults =>
    pushed <-
      withManager (getManager cfg agentId) onMissing onCloseError
        (fun manager => managerCall agentId OpClose (manager_close manager))
        (statusRun opts agentId) ;;
    ret (match pushed with
         | Some entry => allResults ++ [entry]
         | None => allResults
         end).

(** The printing that follows the loop. *)
Let report (opts : MemoryCommandOptions) (allResults : list StatusEntry) : M unit :=
  if opt_json opts then runtimeLog (renderStatusJson allResults)
  else forOf allResults (fun result _ => printStatusEntry opts result) tt.



Lemma runMemoryStatus_run opts (p : Process) :
  let cfg := loadConfig in
  let loop := forOf (resolveAgentIds cfg (opt_agent opts)) (statusBody opts cfg) [] p in
  let setup := [EnsureConfigReady false; SetVerbose (opt_verbose opts)] in
  runMemoryStatus opts p =
    match outcome loop with
    | Returned allResults =>
        let printed := report opts allResults (after loop) in
        mkRun (outcome printed) (after printed) (setup ++ trace loop ++ trace printed)
    | Thrown e => mkRun (Thrown e) (after loop) (setup ++ trace loop)
    end.
Proof.
  intros cfg loop setup.
  unfold runMemoryStatus, ensureConfigReady, setVerbose.
  rewrite !bind_emit. cbv zeta. fold cfg. fold (statusBody opts cfg).
  destruct (outcome loop) as [allResults|e] eqn:Hloop.
  - rewrite (@bind_returned _ _ _ _ _ _ Hloop). reflexivity.
  - rewrite (@bind_thrown _ _ _ _ _ _ Hloop). reflexivity.
Qed.


End StatusClaims.

(** C8.  No exception leaves [memory index] or [memory search], whatever
    the managers do.  When the indexing of an agent raises an error, the
    message [Memory index failed (<agent>): <formatted error>] is written
    to the error channel and [process.exitCode] is 1 at the end; the loop
    still asks for the manager of every target agent, in order.  When the
    search raises an error, the message
    [Memory search failed: <formatted error>] is written to the error
    channel and [process.exitCode] is 1 at the end. *)
Theorem memory_failures_caught
    (world : World) (opts : MemoryCommandOptions) (force : bool) (query : string)
    (p : Process) :
  let targets := resolveAgentIds loadConfig (opt_agent opts) in
  let indexed := memoryIndexAction opts force p in
  let searched := memorySearchAction query opts p in
  outcome indexed = Returned tt /\
  outcome searched = Returned tt /\
  agentsOperatedOn (trace indexed) = targets /\
  (forall agentId manager err,
     In agentId targets ->
     lookup_manager (getMemorySearchManager loadConfig agentId) = Some manager ->
     indexFails opts force manager err ->
     In (RuntimeError
           ("Memory index failed (" ++ agentId ++ "): " ++ formatErrorMessage err))
        (trace indexed) /\
     process_exitCode (after indexed) = Some 1%Z) /\
  (forall manager err,
     lookup_manager
       (getMemorySearchManager loadConfig (resolveAgent loadConfig (opt_agent opts)))
       = Some manager ->
     manager_search manager query = Thrown err ->
     In (RuntimeError ("Memory search failed: " ++ formatErrorMessage err))
        (trace searched) /\
     process_exitCode (after searched) = Some 1%Z).
Proof.
  intros targets indexed searched. splits.
  - apply memoryIndexAction_returns.
  - apply memorySearchAction_returns.
  - apply memoryIndexAction_agents.
  - intros agentId manager err. apply memoryIndexAction_failure.
  - intros manager err. apply memorySearchAction_failure.
Qed.

Lemma memory_failures_caught_witness :
  let opts := mkMemoryOptions None false false false false in
  let p := startProcess ["node"; "cb"; "memory"; "index"] None in
  let indexed := @memoryIndexAction Fixture.sampleWorld opts false p in
  let searched := @memorySearchAction Fixture.sampleWorld "notes" opts p in
  agentsOperatedOn (trace indexed) = ["main"; "work"] /\
  In (RuntimeError "Memory index failed (main): disk full") (trace indexed) /\
  process_exitCode (after indexed) = Some 1%Z /\
  In (RuntimeError "Memory search failed: index unreadable") (trace searched) /\
  process_exitCode (after searched) = Some 1%Z.
Proof.
  intros opts p indexed searched.
  destruct (memory_failures_caught Fixture.sampleWorld opts false "notes" p)
    as (_ & _ & Hagents & Hindex & Hsearch).
  assert (Hfails : @indexFails opts false (Fixture.sampleManager "main")
                     (JsError "disk full")).
  { left. split; [reflexivity | discriminate]. }
  destruct (Hindex "main" (Fixture.sampleManager "main") (JsError "disk full")
              (or_introl eq_refl) eq_refl Hfails) as [Hmsg Hexit].
  destruct (Hsearch (Fixture.sampleManager "main") (JsError "index unreadable")
              eq_refl eq_refl) as [Hmsg' Hexit'].
  splits; assumption.
Defined.

(** ** Which agents the memory commands work on *)

Section TargetAgents.
Context {world : World}.







End TargetAgents.




(** * Further properties *)

(** ** The process title *)

(** Induction on the chain of parents of a command. *)
Lemma Command_chain_ind (P : Command -> Prop) :
  (forall name, P (mkCommand name None)) ->
  (forall name parent, P parent -> P (mkCommand name (Some parent))) ->
  forall c, P c.
Proof.
  intros Hroot Hsub. fix IH 1. intros [name [parent|]].
  - apply Hsub, IH.
  - apply Hroot.
Qed.

Lemma topLevelCommand_sub (name : string) (parent : Command) :
  topLevelCommand (mkCommand name (Some parent)) =
    match commandParent parent with
    | Some _ => topLevelCommand parent
    | None => mkCommand name (Some parent)
    end.
Proof. reflexivity. Qed.

Lemma ancestors_self (c : Command) : In c (ancestors c).
Proof. destruct c as [name [parent|]]; now left. Qed.

(** X1.  The loop of [setProcessTitleForCommand] stops at the ancestor
    that sits directly under the root of the command tree: a command
    without parent is its own result; for any other command the result
    is one of its ancestors (or itself), the parent of the result has no
    parent, and running the loop again from the result changes nothing.
    A sub-command of a command that has a parent yields the same result
    as that command, so every command below one top-level command gets
    the title of that top-level command. *)
Theorem topLevelCommand_under_root (c : Command) :
  let top := topLevelCommand c in
  In top (ancestors c) /\
  (commandParent c = None -> top = c) /\
  (commandParent c <> None ->
   exists root, commandParent top = Some root /\ commandParent root = None) /\
  topLevelCommand top = top /\
  (forall name, commandParent c <> None ->
     topLevelCommand (mkCommand name (Some c)) = top /\
     forall p, setProcessTitleForCommand (mkCommand name (Some c)) p
               = setProcessTitleForCommand c p).
Proof.
  induction c as [name|name parent IH] using Command_chain_ind; cbv zeta in *.
  - cbn. splits; tauto.
  - rewrite topLevelCommand_sub.
    destruct IH as (Hin & Hroot & Hsub & Hidem & _).
    destruct (commandParent parent) as [grand|] eqn:Hgrand.
    + assert (Hne : Some grand <> None) by discriminate.
      splits.
      * cbn [ancestors]. now right.
      * discriminate.
      * intros _. exact (Hsub Hne).
      * exact Hidem.
      * intros name' _.
        assert (Htop : topLevelCommand (mkCommand name' (Some (mkCommand name (Some parent))))
                       = topLevelCommand parent).
        { rewrite topLevelCommand_sub. cbn [commandParent].
          rewrite topLevelCommand_sub. now rewrite Hgrand. }
        split; [exact Htop|].
        intros p. unfold setProcessTitleForCommand. rewrite Htop.
        rewrite topLevelCommand_sub. now rewrite Hgrand.
    + splits.
      * cbn [ancestors]. now left.
      * discriminate.
      * intros _. exists parent. now split.
      * rewrite topLevelCommand_sub. now rewrite Hgrand.
      * intros name' _.
        assert (Htop : topLevelCommand (mkCommand name' (Some (mkCommand name (Some parent))))
                       = mkCommand name (Some parent)).
        { rewrite topLevelCommand_sub. cbn [commandParent].
          rewrite topLevelCommand_sub. now rewrite Hgrand. }
        split; [exact Htop|].
        intros p. unfold setProcessTitleForCommand. rewrite Htop.
        rewrite topLevelCommand_sub. now rewrite Hgrand.
Qed.

Lemma topLevelCommand_under_root_witness :
  let program := mkCommand "clawdbot" None in
  let memory := mkCommand "memory" (Some program) in
  let status := mkCommand "status" (Some memory) in
  topLevelCommand status = memory /\
  (exists root, commandParent (topLevelCommand memory) = Some root /\
                commandParent root = None).
Proof.
  intros program memory status.
  destruct (topLevelCommand_under_root memory) as (_ & _ & Hroot & _ & Hsub).
  split.
  - exact (proj1 (Hsub "status" ltac:(discriminate))).
  - exact (Hroot ltac:(discriminate)).
Defined.

(** X2.  The pre-action hook touches nothing of the [process] global but
    the title: argv, the environment and the exit code are as before.
    The title either stays as it was, or becomes [clawdbot-<name>] for
    the name of the top-level command, and then that name is neither
    empty nor [clawdbot]. *)
Theorem preActionHook_process
    (argvApi : ArgvApi) (isReadOnlyCommand : list string -> bool)
    (programVersion : string) (actionCommand : Command) (p : Process) :
  let q := after (preActionHook isReadOnlyCommand programVersion actionCommand p) in
  let name := commandName (topLevelCommand actionCommand) in
  process_argv q = process_argv p /\
  process_env_CLAWDBOT_DISABLE_ROUTE_FIRST q = process_env_CLAWDBOT_DISABLE_ROUTE_FIRST p /\
  process_exitCode q = process_exitCode p /\
  (process_title q = process_title p \/
   process_title q = Some ("clawdbot-" ++ name)%string /\ name <> "" /\ name <> "clawdbot").
Proof.
  intros q name. unfold q. rewrite preActionHook_run. cbv zeta. cbn [after].
  unfold setProcessTitleForCommand. fold name.
  destruct (String.eqb_spec name "") as [Hempty|Hempty];
    unfold truthy; [rewrite Hempty; cbn; tauto|].
  apply String.eqb_neq in Hempty. rewrite Hempty. cbn [negb orb].
  destruct (String.eqb_spec name "clawdbot") as [Hprog|Hprog]; [cbn; tauto|].
  cbn [setTitle after process_argv process_env_CLAWDBOT_DISABLE_ROUTE_FIRST
       process_exitCode process_title].
  apply String.eqb_neq in Hempty. splits; try reflexivity. right. now splits.
Qed.

(** ** The shapes of a run of the dispatcher *)

Section RouteShapes.
Context {argvApi : ArgvApi} {world : World}.
Variable argv : list string.
Variable p : Process.

Let path := getCommandPath argv 2.
Let primary := nth_error path 0.
Let secondary := nth_error path 1.

Lemma tryRouteCli_shape : RouteRun argv p (tryRouteCli argv p).
Proof.
  destruct (isTruthyEnvValue (process_env_CLAWDBOT_DISABLE_ROUTE_FIRST p)) eqn:Henv.
  { rewrite route_disabled by assumption. apply RouteDeclined.
    intros [Hoff _]. congruence. }
  destruct (hasHelpOrVersion argv) eqn:Hhelp.
  { rewrite route_help by assumption. apply RouteDeclined.
    intros [_ Hno]. congruence. }
  assert (Hc : consulted argv p) by now split.
  assert (Hnull : nullLookup argv =
            if strictEq primary "health" || strictEq primary "status"
            then isNull (getFlagValue argv "--timeout")
            else if strictEq primary "sessions"
            then isNull (getFlagValue argv "--store") || isNull (getFlagValue argv "--active")
            else if strictEq primary "memory" && strictEq secondary "status"
            then isNull (getFlagValue argv "--agent")
            else false) by reflexivity.
  assert (Hpath : fastPathOf argv =
            if strictEq primary "health" then Some PathHealth
            else if strictEq primary "status" then Some PathStatus
            else if strictEq primary "sessions" then Some PathSessions
            else if strictEq primary "agents" && strictEq secondary "list"
            then Some PathAgentsList
            else if strictEq primary "memory" && strictEq secondary "status"
            then Some PathMemoryStatus
            else None) by reflexivity.
  destruct (strictEq primary "health") eqn:Hhealth.
  { rewrite (route_health Hc Hhealth). cbv zeta. cbn [orb] in Hnull.
    destruct (isNull (getFlagValue argv "--timeout")).
    - now apply (RouteAborted (path := PathHealth)).
    - now apply (RouteHandled (path := PathHealth) _ _ Hc Hpath Hnull). }
  destruct (strictEq primary "status") eqn:Hstatus.
  { rewrite (route_status Hc Hstatus). cbv zeta. cbn [orb] in Hnull.
    destruct (isNull (getFlagValue argv "--timeout")).
    - now apply (RouteAborted (path := PathStatus)).
    - now apply (RouteHandled (path := PathStatus) _ _ Hc Hpath Hnull). }
  cbn [orb] in Hnull.
  destruct (strictEq primary "sessions") eqn:Hsessions.
  { rewrite (route_sessions Hc Hsessions). cbv zeta.
    destruct (isNull (getFlagValue argv "--store") ||
              isNull (getFlagValue argv "--active")).
    - now apply (RouteAborted (path := PathSessions)).
    - now apply (RouteHandled (path := PathSessions) _ _ Hc Hpath Hnull). }
  destruct (strictEq primary "agents" && strictEq secondary "list") eqn:Hagents.
  { apply andb_true_iff in Hagents. destruct Hagents as [Ha Hl].
    rewrite (route_agents_list Hc Ha Hl).
    assert (Hnull' : nullLookup argv = false).
    { rewrite Hnull.
      rewrite (@strictEq_exclusive primary "agents" "memory" eq_refl Ha). reflexivity. }
    now apply (RouteHandled (path := PathAgentsList) false _ Hc Hpath Hnull'). }
  destruct (strictEq primary "memory" && strictEq secondary "status") eqn:Hmemory.
  { apply andb_true_iff in Hmemory. destruct Hmemory as [Hm Hs].
    rewrite (route_memory_status Hc Hm Hs). cbv zeta.
    destruct (isNull (getFlagValue argv "--agent")).
    - now apply (RouteAborted (path := PathMemoryStatus)).
    - now apply (RouteMemory _ Hc Hpath Hnull). }
  rewrite route_unmatched by assumption.
  apply RouteDeclined. intros _. exact Hpath.
Qed.

End RouteShapes.

Lemma runMemoryStatus_events {world : World} (opts : MemoryCommandOptions) (p : Process) :
  Forall memoryStatusEvent (trace (runMemoryStatus opts p)).
Proof.
  assert (H : keeps anyProcess memoryStatusEvent (runMemoryStatus opts)).
  { unfold runMemoryStatus. run_auto. }
  exact (proj2 (H p I)).
Qed.

Lemma existsb_isHandler_app (t u : list Event) :
  existsb isHandler (t ++ u) = existsb isHandler t || existsb isHandler u.
Proof. apply existsb_app. Qed.

Lemma memoryStatus_no_handler (t : list Event) :
  Forall memoryStatusEvent t -> existsb isHandler t = false.
Proof.
  induction 1 as [|ev t Hev _ IH]; [reflexivity|].
  cbn [existsb]. rewrite IH. destruct ev; try reflexivity; contradiction.
Qed.

Lemma invokes_isHandler (path : FastPath) (ev : Event) :
  invokes path ev = true -> isHandler ev = true /\ path <> PathMemoryStatus.
Proof. destruct path, ev; cbn; intros H; try discriminate; now split. Qed.

Lemma setupCalls_no_handler (banner : Event) (path : FastPath) (verbose : bool) :
  isHandler banner = false ->
  existsb isHandler (setupCalls banner path ++ verboseCall path verbose) = false.
Proof. intros Hb. destruct path; cbn; now rewrite Hb. Qed.

(** X3.  A [false] from [tryRouteCli] is a safe fall-back: the [process]
    global is untouched and the calls made so far are an initial part of
    banner, readiness check without migration, plugin registry; no
    handler ran, no [setVerbose] happened and no memory manager was asked
    for. *)
Theorem tryRouteCli_false_is_safe
    (argvApi : ArgvApi) (world : World) (argv : list string) (p : Process) :
  let r := tryRouteCli argv p in
  outcome r = Returned false ->
  after r = p /\
  (exists k,
     trace r = firstn k [EmitCliBanner VERSION (Some argv);
                         EnsureConfigReady false;
                         EnsurePluginRegistryLoaded]) /\
  existsb isHandler (trace r) = false /\
  agentsOperatedOn (trace r) = [].
Proof.
  intros r Hfalse. unfold r in *.
  destruct (tryRouteCli_shape argv p) as [Hnone|path Hc Hpath Hnull|path v h Hc Hpath Hnull Hinv|opts Hc Hpath Hnull].
  - splits; try reflexivity. now exists 0.
  - assert (Hpath' : path <> PathAgentsList).
    { intros ->. unfold nullLookup, fastPathOf in *.
      destruct (strictEq _ "health"); [discriminate|].
      destruct (strictEq _ "status"); [discriminate|].
      destruct (strictEq _ "sessions"); [discriminate|].
      destruct (strictEq (nth_error (getCommandPath argv 2) 0) "agents") eqn:Ha;
        [|cbn [andb] in Hpath; destruct (_ && _); discriminate].
      rewrite (@strictEq_exclusive _ "agents" "memory" eq_refl Ha) in Hnull.
      cbn [orb andb] in Hnull. discriminate. }
    destruct path; try (now elim Hpath'); cbn [setupCalls trace after];
      (splits; [reflexivity | | reflexivity | reflexivity]).
    + now exists 3.
    + now exists 3.
    + now exists 2.
    + now exists 1.
  - discriminate.
  - cbv zeta in Hfalse. cbn [outcome] in Hfalse.
    destruct (outcome (runMemoryStatus opts p)); discriminate.
Qed.

Lemma tryRouteCli_false_is_safe_witness :
  let argv := ["node"; "cb"; "sessions"; "--active"] in
  let p := startProcess argv None in
  after (@tryRouteCli specArgv Fixture.sampleWorld argv p) = p /\
  trace (@tryRouteCli specArgv Fixture.sampleWorld argv p)
    = [EmitCliBanner "2026.1.0" (Some argv); EnsureConfigReady false].
Proof.
  intros argv p.
  destruct (tryRouteCli_false_is_safe specArgv Fixture.sampleWorld argv p eq_refl)
    as (Hafter & _ & _ & _).
  split; [exact Hafter | reflexivity].
Defined.

(** X4.  [tryRouteCli] invokes a command handler at most once, and only
    as its very last call: when a handler event occurs in the trace, the
    run returned [true], left the [process] global untouched, and the
    handler event is the last one, preceded by no other handler event.
    Conversely a run that returns [true] on a path other than memory
    status has invoked the handler of that path, after the set-up calls
    of that path. *)
Theorem tryRouteCli_one_handler
    (argvApi : ArgvApi) (world : World) (argv : list string) (p : Process) :
  let r := tryRouteCli argv p in
  let banner := EmitCliBanner VERSION (Some argv) in
  (existsb isHandler (trace r) = true ->
   outcome r = Returned true /\ after r = p /\
   exists pre handler,
     trace r = pre ++ [handler] /\ isHandler handler = true /\
     existsb isHandler pre = false) /\
  (outcome r = Returned true -> fastPathOf argv <> Some PathMemoryStatus ->
   exists path verbose handler,
     fastPathOf argv = Some path /\ invokes path handler = true /\
     trace r = setupCalls banner path ++ verboseCall path verbose ++ [handler]).
Proof.
  intros r banner. unfold r.
  destruct (tryRouteCli_shape argv p) as [Hnone|path Hc Hpath Hnull|path v h Hc Hpath Hnull Hinv|opts Hc Hpath Hnull].
  - split; [discriminate|]. discriminate.
  - split; [|discriminate]. cbn [trace]. destruct path; discriminate.
  - destruct (invokes_isHandler _ _ Hinv) as [Hh Hnot]. split.
    + intros _. splits; try reflexivity.
      exists (setupCalls (EmitCliBanner VERSION (Some argv)) path ++ verboseCall path v), h.
      splits.
      * cbn [trace]. now rewrite app_assoc.
      * exact Hh.
      * now apply setupCalls_no_handler.
    + intros _ _. now exists path, v, h.
  - split.
    + cbv zeta. cbn [trace existsb isHandler orb].
      rewrite (memoryStatus_no_handler (runMemoryStatus_events opts p)). discriminate.
    + intros _ Hnot. now elim Hnot.
Qed.

Lemma tryRouteCli_one_handler_witness :
  let argv := ["node"; "cb"; "sessions"; "--store=/tmp/s.json"; "--json"] in
  let p := startProcess argv None in
  exists path verbose handler,
    @fastPathOf specArgv argv = Some path /\ invokes path handler = true /\
    trace (@tryRouteCli specArgv Fixture.sampleWorld argv p)
      = setupCalls (EmitCliBanner "2026.1.0" (Some argv)) path
        ++ verboseCall path verbose ++ [handler].
Proof.
  intros argv p.
  destruct (tryRouteCli_one_handler specArgv Fixture.sampleWorld argv p) as [_ Htrue].
  exact (Htrue eq_refl ltac:(discriminate)).
Defined.

Lemma memoryStatusEvent_In (t : list Event) (ev : Event) :
  Forall memoryStatusEvent t -> In ev t -> memoryStatusEvent ev.
Proof. intros H Hin. now apply (proj1 (Forall_forall _ _) H). Qed.

(** X5.  The plugin registry is loaded on the health and status fast
    paths and on no other: the call occurs in a run of [tryRouteCli]
    exactly when the dispatcher is consulted and the command path starts
    with [health] or [status], and it then occurs whether the run ends
    with the handler or falls back on a [null] lookup. *)
Theorem tryRouteCli_plugin_registry
    (argvApi : ArgvApi) (world : World) (argv : list string) (p : Process) :
  In EnsurePluginRegistryLoaded (trace (tryRouteCli argv p)) <->
  consulted argv p /\
  (fastPathOf argv = Some PathHealth \/ fastPathOf argv = Some PathStatus).
Proof.
  destruct (tryRouteCli_shape argv p) as [Hnone|path Hc Hpath Hnull|path v h Hc Hpath Hnull Hinv|opts Hc Hpath Hnull].
  - split; [intros []|]. intros [Hc [H|H]]; rewrite (Hnone Hc) in H; discriminate.
  - cbn [trace]. rewrite Hpath. destruct path; cbn [setupCalls In]; split;
      try (intros _; split; [exact Hc | tauto]);
      try (intros [_ [H|H]]; discriminate);
      try tauto;
      intros H; repeat destruct H as [H|H]; try discriminate; contradiction.
  - cbn [trace]. rewrite Hpath.
    destruct path, h; try discriminate Hinv;
      cbn [setupCalls verboseCall app In]; split;
      try (intros _; split; [exact Hc | tauto]);
      try (intros [_ [H|H]]; discriminate);
      try tauto;
      intros H; repeat destruct H as [H|H]; try discriminate; contradiction.
  - cbv zeta. cbn [trace]. rewrite Hpath. split.
    + intros [H|H]; [discriminate|].
      elim (@memoryStatusEvent_In _ _ (runMemoryStatus_events opts p) H).
    + intros [_ [H|H]]; discriminate.
Qed.

(** X6.  The banner is emitted at most once per run of [tryRouteCli]
    and before anything else: the trace is empty, or it starts with the
    banner for this version and argv and holds no other banner call. *)
Theorem tryRouteCli_banner_first
    (argvApi : ArgvApi) (world : World) (argv : list string) (p : Process) :
  let t := trace (tryRouteCli argv p) in
  t = [] \/
  exists rest, t = EmitCliBanner VERSION (Some argv) :: rest /\ Forall notBanner rest.
Proof.
  cbv zeta.
  destruct (tryRouteCli_shape argv p) as [Hnone|path Hc Hpath Hnull|path v h Hc Hpath Hnull Hinv|opts Hc Hpath Hnull].
  - now left.
  - right. cbn [trace]. destruct path; cbn [setupCalls]; eexists; split;
      try reflexivity; repeat constructor.
  - right. cbn [trace].
    destruct path, h; try discriminate Hinv; cbn [setupCalls verboseCall app];
      eexists; split; try reflexivity; repeat constructor.
  - right. cbv zeta. cbn [trace]. eexists; split; [reflexivity|].
    apply Forall_forall. intros ev Hin.
    assert (Hev := @memoryStatusEvent_In _ _ (runMemoryStatus_events opts p) Hin).
    now destruct ev.
Qed.

Lemma tryRouteCli_plugin_registry_witness :
  let argv := ["node"; "cb"; "health"; "--json"] in
  In EnsurePluginRegistryLoaded
     (trace (@tryRouteCli specArgv Fixture.sampleWorld argv (startProcess argv None))).
Proof.
  intros argv.
  apply (proj2 (tryRouteCli_plugin_registry specArgv Fixture.sampleWorld argv
                  (startProcess argv None))).
  split; [split; reflexivity | left; reflexivity].
Defined.

(** ** The memory status command *)

(** X7.  [--index] implies [--deep]: with [--index] given,
    [runMemoryStatus] runs the same whether or not [--deep] is given
    too. *)
Theorem runMemoryStatus_index_implies_deep
    (world : World) (opts : MemoryCommandOptions) (p : Process) :
  opt_index opts = true ->
  runMemoryStatus opts p = runMemoryStatus (withDeep opts) p.
Proof.
  destruct opts as [agent json deep index verbose]. cbn [opt_index]. intros ->.
  unfold withDeep. cbn [opt_agent opt_json opt_index opt_verbose].
  destruct deep; reflexivity.
Qed.

Lemma runMemoryStatus_index_implies_deep_witness :
  let p := startProcess ["node"; "cb"; "memory"; "status"; "--index"] None in
  @runMemoryStatus Fixture.sampleWorld (mkMemoryOptions None false false true false) p
  = @runMemoryStatus Fixture.sampleWorld (mkMemoryOptions None false true true false) p.
Proof.
  intros p.
  exact (runMemoryStatus_index_implies_deep Fixture.sampleWorld
           (mkMemoryOptions None false false true false) p eq_refl).
Defined.

Ltac run_plain :=
  repeat first
    [ run_step
    | progress cbn [opt_agent opt_json opt_deep opt_index opt_verbose]
    | run_cases
    | run_unfold
    | exact I
    | reflexivity
    | (eexists; reflexivity) ].

(** X8.  Without [--index], [runMemoryStatus] leaves the [process]
    global as it found it, the exit code included, whatever the managers
    do and however the run ends; the only messages it can write to the
    error channel are reports of a failed [close]. *)
Theorem runMemoryStatus_without_index
    (world : World) (opts : MemoryCommandOptions) (p : Process) :
  opt_index opts = false ->
  after (runMemoryStatus opts p) = p /\
  Forall closeFailureOrQuiet (trace (runMemoryStatus opts p)).
Proof.
  destruct opts as [agent json deep index verbose]. cbn [opt_index]. intros ->.
  assert (H : keeps (fun q => q = p) closeFailureOrQuiet
                (runMemoryStatus (mkMemoryOptions agent json deep false verbose))).
  { unfold runMemoryStatus. run_plain. }
  exact (H p eq_refl).
Qed.

Lemma runMemoryStatus_without_index_witness :
  let p := startProcess ["node"; "cb"; "memory"; "status"] None in
  after (@runMemoryStatus Fixture.sampleWorld
           (mkMemoryOptions None false true false false) p) = p.
Proof.
  intros p.
  exact (proj1 (runMemoryStatus_without_index Fixture.sampleWorld
                  (mkMemoryOptions None false true false false) p eq_refl)).
Defined.

(** X9.  What [run] of [runMemoryStatus] returns agrees with what it did.
    The entry carries the agent id it was called for and an embedding
    probe exactly in deep mode, and [manager.status()] is the last call.
    An entry without index error means the [process] global is untouched
    and nothing was written to the error channel.  An entry with an
    index error means [--index] was given, [sync] threw, the entry holds
    the formatted error, that error was written once to the error
    channel as [Memory index failed: ...], and the exit code is 1. *)
Theorem statusRun_entry
    (world : World) (opts : MemoryCommandOptions) (agentId : string)
    (manager : Manager) (p : Process) (entry : StatusEntry) :
  let r := statusRun opts agentId manager p in
  outcome r = Returned entry ->
  entry_agentId entry = agentId /\
  (exists pre, trace r = pre ++ [ManagerCall agentId OpStatus]) /\
  (entry_embeddingProbe entry <> None <-> opt_deep opts || opt_index opts = true) /\
  match entry_indexError entry with
  | None => after r = p /\ errorMessages (trace r) = []
  | Some msg =>
      opt_index opts = true /\
      (exists err, manager_sync manager false = Thrown err /\ msg = formatErrorMessage err) /\
      errorMessages (trace r) = [("Memory index failed: " ++ msg)%string] /\
      process_exitCode (after r) = Some 1%Z
  end.
Proof.
  destruct opts as [agent json deep index verbose].
  destruct manager as [status probeVector probeEmbedding sync search close].
  cbv zeta. unfold statusRun.
  cbn [opt_deep opt_index manager_status manager_probeVectorAvailability
       manager_probeEmbeddingAvailability manager_sync].
  destruct (sync false) as [[]|err] eqn:Hsync;
    destruct deep, index, probeVector as [[]|?], probeEmbedding as [probe|?],
      status as [st|?];
    lazy -[String.append formatErrorMessage];
    try discriminate;
    intros Hentry; injection Hentry as <-;
    lazy -[String.append formatErrorMessage not];
    (split; [reflexivity|];
     split; [match goal with
             | |- exists pre, ?l = _ => exists (removelast l); reflexivity
             end|];
     split; [split; [reflexivity || (intros H; now elim H)
                    | discriminate || reflexivity]|];
     first [ now split | splits; try reflexivity; now exists err ]).
Qed.

Lemma statusRun_entry_witness :
  let opts := mkMemoryOptions None false false true false in
  let p := startProcess ["node"; "cb"; "memory"; "status"; "--index"] None in
  let r := @statusRun Fixture.sampleWorld opts "main" (Fixture.sampleManager "main") p in
  errorMessages (trace r) = ["Memory index failed: disk full"] /\
  process_exitCode (after r) = Some 1%Z.
Proof.
  intros opts p r.
  destruct (@statusRun_entry Fixture.sampleWorld opts "main" (Fixture.sampleManager "main") p
              (mkStatusEntry "main" Fixture.sampleStatus
                 (Some (mkEmbeddingProbe true None)) (Some "disk full"))
              eq_refl)
    as (_ & _ & _ & _ & _ & Herrors & Hexit).
  split; [exact Herrors | exact Hexit].
Defined.

(** ** Agents without manager, and loops that leave the process alone *)

Lemma withManager_missing {world : World} {R : Type} (cfg : Config) (agentId : string)
    (close : Manager -> M unit) (run : Manager -> M R) (p : Process) :
  available cfg agentId = false ->
  withManager (getManager cfg agentId) onMissing onCloseError close run p =
    mkRun (Returned None) p
      [GetMemorySearchManager agentId; RuntimeLog (missingMessage cfg agentId)].
Proof.
  unfold available, missingMessage, withManager, getManager, call, onMissing,
    runtimeLog, emit.
  unfold bind at 1. cbn [outcome after trace].
  destruct (lookup_manager (getMemorySearchManager cfg agentId)); [discriminate|].
  intros _. reflexivity.
Qed.

Lemma available_found {world : World} (cfg : Config) (agentId : string) :
  available cfg agentId = true ->
  exists manager, lookup_manager (getMemorySearchManager cfg agentId) = Some manager.
Proof.
  unfold available.
  destruct (lookup_manager (getMemorySearchManager cfg agentId)) as [manager|];
    [now exists manager | discriminate].
Qed.

Section QuietLoops.
Context {A S : Type}.
Variable body : A -> S -> M S.
Variable P : Event -> Prop.

(** A loop whose iterations return, leave the process alone and make
    only calls in [P] does so too. *)
Lemma forOf_preserving (xs : list A) :
  (forall x, In x xs -> forall s p,
     (exists s', outcome (body x s p) = Returned s') /\
     after (body x s p) = p /\ Forall P (trace (body x s p))) ->
  forall s p,
    (exists s', outcome (forOf xs body s p) = Returned s') /\
    after (forOf xs body s p) = p /\ Forall P (trace (forOf xs body s p)).
Proof.
  induction xs as [|x xs IH]; intros Hbody s p.
  - cbn. splits; [now exists s | reflexivity | constructor].
  - rewrite forOf_cons.
    destruct (Hbody x (or_introl eq_refl) s p) as ([s' Hout] & Hafter & Htrace).
    rewrite (@bind_returned _ _ _ _ _ _ Hout). cbn [outcome after trace].
    rewrite Hafter.
    destruct (IH (fun y Hy => Hbody y (or_intror Hy)) s' p) as (Hout' & Hafter' & Htrace').
    splits; [exact Hout' | exact Hafter' | apply Forall_app; now split].
Qed.

End QuietLoops.

(** ** The memory index command when nothing fails *)

Section IndexSuccess.
Context {world : World}.

Let indexBody (opts : MemoryCommandOptions) (force : bool) (cfg : Config) :
    string -> unit -> M unit :=
  fun agentId _ =>
    withManager (getManager cfg agentId) onMissing onCloseError
      (fun manager => managerCall agentId OpClose (manager_close manager))
      (indexRun opts force agentId) ;;
    ret tt.

Lemma indexBody_missing opts force cfg agentId (s : unit) (p : Process) :
  available cfg agentId = false ->
  indexBody opts force cfg agentId s p =
    mkRun (Returned tt) p
      [GetMemorySearchManager agentId; RuntimeLog (missingMessage cfg agentId)].
Proof.
  intros Hmissing. unfold indexBody, bind.
  now rewrite withManager_missing by assumption.
Qed.

Lemma indexBody_success opts force cfg agentId manager (s : unit) (p : Process) :
  lookup_manager (getMemorySearchManager cfg agentId) = Some manager ->
  indexSucceeds opts force manager ->
  let r := indexBody opts force cfg agentId s p in
  outcome r = Returned tt /\ after r = p /\
  In (RuntimeLog ("Memory index updated (" ++ agentId ++ ").")) (trace r) /\
  Forall closeFailureOrQuiet (trace r).
Proof.
  intros Hlookup [Hsync Hstatus] r. unfold r. clear r.
  remember (indexBody opts force cfg agentId s p) as run eqn:Hrun.
  unfold indexBody in Hrun. unfold bind at 1 in Hrun.
  rewrite managed_found with (manager := manager) in Hrun by exact Hlookup.
  destruct opts as [agent json deep index verbose].
  destruct manager as [status probeVector probeEmbedding sync search close].
  cbn [manager_sync manager_status opt_verbose] in Hsync, Hstatus.
  unfold indexRun in Hrun.
  cbn [opt_verbose manager_status manager_sync manager_close] in Hrun.
  rewrite Hsync in Hrun.
  assert (Hst : verbose = true -> exists st, status = Returned st) by exact Hstatus.
  clear Hstatus Hlookup.
  destruct verbose; [destruct (Hst eq_refl) as [st ->]|];
    destruct close as [[]|closeErr];
    lazy -[String.append formatErrorMessage renderIndexHeader] in Hrun;
    subst run; cbn [outcome after trace];
    (splits; [reflexivity | reflexivity | cbn [In]; tauto |]);
    repeat constructor; now eexists.
Qed.

(** X10.  When every target agent of [memory index] either has no
    manager or is indexed without failure, the command returns with the
    [process] global untouched (the exit code stays as it was), writes
    nothing to the error channel but reports of a failed [close], logs
    [Memory index updated (<agent>).] for each agent that has a manager
    and the missing-manager message for each agent that has none. *)
Theorem memoryIndexAction_all_fine
    (opts : MemoryCommandOptions) (force : bool) (p : Process) :
  let targets := resolveAgentIds loadConfig (opt_agent opts) in
  let r := memoryIndexAction opts force p in
  (forall agentId, In agentId targets ->
     available loadConfig agentId = false \/
     exists manager,
       lookup_manager (getMemorySearchManager loadConfig agentId) = Some manager /\
       indexSucceeds opts force manager) ->
  outcome r = Returned tt /\ after r = p /\
  Forall closeFailureOrQuiet (trace r) /\
  (forall agentId, In agentId targets ->
     In (RuntimeLog (if available loadConfig agentId
                     then ("Memory index updated (" ++ agentId ++ ").")%string
                     else missingMessage loadConfig agentId))
        (trace r)).
Proof.
  intros targets r Hfine. unfold r. rewrite memoryIndexAction_run. cbv zeta.
  fold targets. fold (indexBody opts force loadConfig).
  assert (Hbody : forall a, In a targets -> forall (s : unit) q,
            (exists s', outcome (indexBody opts force loadConfig a s q) = Returned s') /\
            after (indexBody opts force loadConfig a s q) = q /\
            Forall closeFailureOrQuiet (trace (indexBody opts force loadConfig a s q))).
  { intros a Ha s q. destruct (Hfine a Ha) as [Hmissing|(manager & Hlookup & Hok)].
    - rewrite indexBody_missing by assumption. cbn [outcome after trace].
      splits; [now exists tt | reflexivity | repeat constructor].
    - destruct (@indexBody_success opts force loadConfig a manager s q Hlookup Hok)
        as (Hout & Hafter & _ & Htrace).
      splits; [now exists tt | exact Hafter | exact Htrace]. }
  destruct (@forOf_preserving _ _ (indexBody opts force loadConfig) closeFailureOrQuiet
              targets Hbody tt p) as ([[] Hout] & Hafter & Htrace).
  cbn [outcome after trace]. splits.
  - exact Hout.
  - exact Hafter.
  - constructor; [exact I | exact Htrace].
  - intros a Ha. right.
    apply forOf_trace_In with (a := a); [| |exact Ha].
    + intros x s q. unfold indexBody. apply bind_ret_returns, managed_returns.
      intros manager. apply indexRun_returns.
    + intros s q. destruct (Hfine a Ha) as [Hmissing|(manager & Hlookup & Hok)].
      * rewrite Hmissing. rewrite indexBody_missing by assumption. right. now left.
      * unfold available. rewrite Hlookup.
        now destruct (@indexBody_success opts force loadConfig a manager s q Hlookup Hok)
          as (_ & _ & Hin & _).
Qed.

End IndexSuccess.

Lemma memoryIndexAction_all_fine_witness :
  let opts := mkMemoryOptions (Some "work") false false false true in
  let p := startProcess ["node"; "cb"; "memory"; "index"; "--agent"; "work"] None in
  let r := @memoryIndexAction Fixture.sampleWorld opts false p in
  after r = p /\ In (RuntimeLog "Memory index updated (work).") (trace r).
Proof.
  intros opts p r.
  assert (Hfine : forall agentId,
            In agentId (@resolveAgentIds Fixture.sampleWorld
                          (@loadConfig Fixture.sampleWorld) (opt_agent opts)) ->
            @available Fixture.sampleWorld (@loadConfig Fixture.sampleWorld) agentId = false \/
            exists manager,
              lookup_manager
                (@getMemorySearchManager Fixture.sampleWorld
                   (@loadConfig Fixture.sampleWorld) agentId) = Some manager /\
              indexSucceeds opts false manager).
  { intros agentId [<-|[]]. right. exists (Fixture.sampleManager "work").
    split; [reflexivity|]. split; [reflexivity|]. intros _. now eexists. }
  destruct (@memoryIndexAction_all_fine Fixture.sampleWorld opts false p Hfine)
    as (_ & Hafter & _ & Hlogs).
  split; [exact Hafter|]. exact (Hlogs "work" (or_introl eq_refl)).
Defined.

(** ** The memory search command *)

(** X11.  With a manager available, [memory search] prints either
    results or an error, never both.  When [search] returns, exactly one
    message goes to the log channel: the JSON rendering in JSON mode
    (also for an empty result), otherwise [No matches.] for an empty
    result and the rendered hits for a non-empty one; the [process]
    global is untouched and nothing but a failed [close] is reported on
    the error channel.  When [search] throws, nothing is written to the
    log channel. *)
Theorem memorySearchAction_output
    (world : World) (query : string) (opts : MemoryCommandOptions)
    (manager : Manager) (p : Process) :
  let agentId := resolveAgent loadConfig (opt_agent opts) in
  let r := memorySearchAction query opts p in
  lookup_manager (getMemorySearchManager loadConfig agentId) = Some manager ->
  (forall results, manager_search manager query = Returned results ->
     logMessages (trace r) =
       [if opt_json opts then renderSearchJson results
        else match results with
             | [] => "No matches."
             | _ :: _ => renderSearchReport results
             end] /\
     after r = p /\ Forall closeFailureOrQuiet (trace r)) /\
  (forall err, manager_search manager query = Thrown err ->
     logMessages (trace r) = []).
Proof.
  intros agentId r Hlookup. unfold r. clear r.
  remember (memorySearchAction query opts p) as run eqn:Hrun.
  unfold memorySearchAction in Hrun. cbv zeta in Hrun. fold agentId in Hrun.
  unfold bind at 1 in Hrun.
  rewrite managed_found with (manager := manager) in Hrun by exact Hlookup.
  clear Hlookup. clearbody agentId.
  destruct opts as [agent json deep index verbose].
  destruct manager as [status probeVector probeEmbedding sync search close].
  unfold searchRun in Hrun. cbn [opt_json manager_search manager_close] in Hrun.
  cbn [manager_search opt_json].
  split.
  - intros results Hsearch. rewrite Hsearch in Hrun.
    destruct json, results as [|hit hits], close as [[]|closeErr];
      lazy -[String.append formatErrorMessage renderSearchJson renderSearchReport]
        in Hrun;
      subst run; cbn [outcome after trace logMessages flat_map app];
      (splits; [reflexivity | reflexivity |]); repeat constructor; now eexists.
  - intros err Hsearch. rewrite Hsearch in Hrun.
    destruct close as [[]|closeErr];
      lazy -[String.append formatErrorMessage renderSearchJson renderSearchReport]
        in Hrun;
      subst run; reflexivity.
Qed.

Lemma memorySearchAction_output_witness :
  let opts := mkMemoryOptions (Some "work") false false false false in
  let p := startProcess ["node"; "cb"; "memory"; "search"; "notes"] None in
  logMessages (trace (@memorySearchAction Fixture.sampleWorld "notes" opts p))
    = ["No matches."] /\
  logMessages
    (trace (@memorySearchAction Fixture.sampleWorld "notes"
              (mkMemoryOptions None false false false false) p)) = [].
Proof.
  intros opts p. split.
  - destruct (@memorySearchAction_output Fixture.sampleWorld "notes" opts
                (Fixture.sampleManager "work") p eq_refl) as [Hreturned _].
    exact (proj1 (Hreturned [] eq_refl)).
  - destruct (@memorySearchAction_output Fixture.sampleWorld "notes"
                (mkMemoryOptions None false false false false)
                (Fixture.sampleManager "main") p eq_refl) as [_ Hthrown].
    exact (Hthrown (JsError "index unreadable") eq_refl).
Defined.

(** ** The entries of the memory status report *)

Lemma bind_returned_inv {A B : Type} (m : M A) (k : A -> M B) (p : Process) (b : B) :
  outcome (bind m k p) = Returned b ->
  exists a, outcome (m p) = Returned a /\ outcome (k a (after (m p))) = Returned b.
Proof.
  unfold bind. destruct (outcome (m p)) as [a|e]; cbn [outcome]; [|discriminate].
  intros H. now exists a.
Qed.

Lemma tryFinally_returned_inv {A : Type} (body : M A) (cleanup : M unit) (p : Process)
    (a : A) :
  outcome (tryFinally body cleanup p) = Returned a -> outcome (body p) = Returned a.
Proof.
  unfold tryFinally. destruct (outcome (cleanup _)); cbn [outcome]; [tauto|discriminate].
Qed.

Section StatusEntries.
Context {world : World}.

Let statusBody (opts : MemoryCommandOptions) (cfg : Config) :
    string -> list StatusEntry -> M (list StatusEntry) :=
  fun agentId allResults =>
    pushed <-
      withManager (getManager cfg agentId) onMissing onCloseError
        (fun manager => managerCall agentId OpClose (manager_close manager))
        (statusRun opts agentId) ;;
    ret (match pushed with
         | Some entry => allResults ++ [entry]
         | None => allResults
         end).

Lemma statusRun_agentId opts agentId manager (p : Process) (entry : StatusEntry) :
  outcome (statusRun opts agentId manager p) = Returned entry ->
  entry_agentId entry = agentId.
Proof.
  unfold statusRun. intros H.
  apply bind_returned_inv in H. destruct H as (probes & _ & H).
  apply bind_returned_inv in H. destruct H as (status & _ & H).
  unfold ret in H. cbn [outcome] in H. injection H as <-. reflexivity.
Qed.

(** One iteration appends the entry of its agent when the agent has a
    manager, and nothing otherwise. *)
Lemma statusBody_pushes opts cfg agentId allResults (p : Process) allResults' :
  outcome (statusBody opts cfg agentId allResults p) = Returned allResults' ->
  map entry_agentId allResults' =
    map entry_agentId allResults ++ (if available cfg agentId then [agentId] else []).
Proof.
  unfold statusBody. intros H.
  apply bind_returned_inv in H. destruct H as (pushed & Hpushed & H).
  unfold ret in H. cbn [outcome] in H. injection H as <-.
  destruct (available cfg agentId) eqn:Havailable.
  - destruct (available_found _ _ Havailable) as [manager Hlookup].
    rewrite managed_found with (manager := manager) in Hpushed by exact Hlookup.
    cbv zeta in Hpushed. cbn [outcome] in Hpushed.
    apply tryFinally_returned_inv in Hpushed.
    apply bind_returned_inv in Hpushed. destruct Hpushed as (entry & Hentry & Hsome).
    unfold ret in Hsome. cbn [outcome] in Hsome. injection Hsome as <-.
    rewrite map_app. cbn [map]. now rewrite (statusRun_agentId _ _ _ _ Hentry).
  - rewrite withManager_missing in Hpushed by assumption.
    cbn [outcome] in Hpushed. injection Hpushed as <-. now rewrite app_nil_r.
Qed.

Lemma statusLoop_entries opts cfg (targets : list string) :
  forall allResults (p : Process) allResults',
    outcome (forOf targets (statusBody opts cfg) allResults p) = Returned allResults' ->
    map entry_agentId allResults' =
      map entry_agentId allResults ++ filter (available cfg) targets.
Proof.
  induction targets as [|agentId targets IH]; intros allResults p allResults' H.
  - cbn in H. injection H as <-. now rewrite app_nil_r.
  - rewrite forOf_cons in H.
    apply bind_returned_inv in H. destruct H as (mid & Hmid & H).
    rewrite (IH _ _ _ H), (statusBody_pushes _ _ _ _ _ Hmid), <- app_assoc.
    cbn [filter]. now destruct (available cfg agentId).
Qed.

(** X12.  A run of [runMemoryStatus] in JSON mode that completes ends
    with one log call, the JSON rendering of the collected entries, and
    these entries are those of the target agents that have a manager, one
    per agent and in the order of the targets; an agent without manager
    contributes no entry. *)
Theorem runMemoryStatus_json_entries (opts : MemoryCommandOptions) (p : Process) :
  let targets := resolveAgentIds loadConfig (opt_agent opts) in
  let r := runMemoryStatus opts p in
  opt_json opts = true ->
  outcome r = Returned tt ->
  exists pre allResults,
    trace r = pre ++ [RuntimeLog (renderStatusJson allResults)] /\
    map entry_agentId allResults = filter (available loadConfig) targets.
Proof.
  intros targets r Hjson. unfold r. rewrite runMemoryStatus_run. cbv zeta.
  fold targets. fold (statusBody opts loadConfig). rewrite Hjson.
  destruct (outcome (forOf targets (statusBody opts loadConfig) [] p))
    as [allResults|e] eqn:Hloop; [|discriminate].
  intros _. cbn [trace runtimeLog emit].
  exists ([EnsureConfigReady false; SetVerbose (opt_verbose opts)]
          ++ trace (forOf targets (statusBody opts loadConfig) [] p)), allResults.
  split.
  - now rewrite <- app_assoc.
  - exact (statusLoop_entries _ _ _ _ _ Hloop).
Qed.

End StatusEntries.

Lemma runMemoryStatus_json_entries_witness :
  let opts := mkMemoryOptions None true false false false in
  let p := startProcess ["node"; "cb"; "memory"; "status"; "--json"] None in
  exists pre allResults,
    trace (@runMemoryStatus Fixture.sampleWorld opts p)
      = pre ++ [RuntimeLog (@renderStatusJson Fixture.sampleWorld allResults)] /\
    map entry_agentId allResults = ["main"; "work"].
Proof.
  intros opts p.
  exact (@runMemoryStatus_json_entries Fixture.sampleWorld opts p eq_refl eq_refl).
Defined.

(** X13.  [runMemoryStatus] never searches, calls [sync] only when
    [--index] is given, and never asks [sync] for a forced reindex. *)
Theorem runMemoryStatus_manager_calls
    (world : World) (opts : MemoryCommandOptions) (p : Process) :
  Forall (statusManagerCall (opt_index opts)) (trace (runMemoryStatus opts p)).
Proof.
  destruct opts as [agent json deep index verbose]. cbn [opt_index].
  assert (H : keeps anyProcess (statusManagerCall index)
                (runMemoryStatus (mkMemoryOptions agent json deep index verbose))).
  { destruct index; unfold runMemoryStatus;
      repeat first
        [ run_step
        | progress cbn [opt_agent opt_json opt_deep opt_index opt_verbose]
        | run_cases
        | run_unfold
        | exact I
        | (split; reflexivity) ]. }
  exact (proj2 (H p I)).
Qed.

Section StatusReport.
Context {world : World}.

Let statusBody (opts : MemoryCommandOptions) (cfg : Config) :
    string -> list StatusEntry -> M (list StatusEntry) :=
  fun agentId allResults =>
    pushed <-
      withManager (getManager cfg agentId) onMissing onCloseError
        (fun manager => managerCall agentId OpClose (manager_close manager))
        (statusRun opts agentId) ;;
    ret (match pushed with
         | Some entry => allResults ++ [entry]
         | None => allResults
         end).

Lemma printStatusEntry_run opts (entry : StatusEntry) (p : Process) :
  printStatusEntry opts entry p = mkRun (Returned tt) p (entryLogs opts entry).
Proof.
  unfold printStatusEntry, entryLogs, indexLine, whenTruthy, runtimeLog, emit, bind, ret.
  destruct (opt_index opts); [|reflexivity].
  destruct (entry_indexError entry) as [indexError|]; [|reflexivity].
  now destruct (truthy indexError).
Qed.

Lemma printLoop_run opts (allResults : list StatusEntry) (p : Process) :
  forOf allResults (fun result _ => printStatusEntry opts result) tt p =
    mkRun (Returned tt) p (flat_map (entryLogs opts) allResults).
Proof.
  induction allResults as [|entry rest IH]; [reflexivity|].
  rewrite forOf_cons. unfold bind. rewrite printStatusEntry_run.
  cbn [outcome after trace]. rewrite IH. reflexivity.
Qed.

(** X14.  A run of [runMemoryStatus] without [--json] that completes
    ends with the reports of the collected entries, one per target agent
    that has a manager and in the order of the targets: for each entry
    the rendered report followed by an empty line, preceded, with
    [--index], by [Memory index failed: <error>] when the entry holds a
    non-empty index error and by [Memory index complete.] otherwise. *)
Theorem runMemoryStatus_report_entries (opts : MemoryCommandOptions) (p : Process) :
  let targets := resolveAgentIds loadConfig (opt_agent opts) in
  let r := runMemoryStatus opts p in
  opt_json opts = false ->
  outcome r = Returned tt ->
  exists pre allResults,
    trace r = pre ++ flat_map (entryLogs opts) allResults /\
    map entry_agentId allResults = filter (available loadConfig) targets.
Proof.
  intros targets r Hjson. unfold r. rewrite runMemoryStatus_run. cbv zeta.
  fold targets. fold (statusBody opts loadConfig). rewrite Hjson.
  destruct (outcome (forOf targets (statusBody opts loadConfig) [] p))
    as [allResults|e] eqn:Hloop; [|discriminate].
  intros _. rewrite printLoop_run. cbn [trace].
  exists ([EnsureConfigReady false; SetVerbose (opt_verbose opts)]
          ++ trace (forOf targets (statusBody opts loadConfig) [] p)), allResults.
  split.
  - now rewrite <- app_assoc.
  - exact (statusLoop_entries _ _ _ _ _ Hloop).
Qed.

End StatusReport.

Lemma runMemoryStatus_report_entries_witness :
  let opts := mkMemoryOptions None false false true false in
  let p := startProcess ["node"; "cb"; "memory"; "status"; "--index"] None in
  exists pre allResults,
    trace (@runMemoryStatus Fixture.sampleWorld opts p)
      = pre ++ flat_map (@entryLogs Fixture.sampleWorld opts) allResults /\
    map entry_agentId allResults = ["main"; "work"].
Proof.
  intros opts p.
  exact (@runMemoryStatus_report_entries Fixture.sampleWorld opts p eq_refl eq_refl).
Defined.
